(** * A shallow embedding of the crust C11 parser (src/parser.rs)

    The parser is a recursive-descent parser over an immutable token slice:
    every grammar function takes the slice and a position and returns either
    a parse node with the position after it, or an error message.  Three
    kinds of outcome are distinguished in the model:
    - [Ok (node, pos)] and [Err msg] are the two cases of the Rust [Result];
    - [Panic] is an index [toks[pos]] out of range, which aborts the Rust
      program;
    - [OutOfFuel] only appears when the fuel that bounds the mutual recursion
      of the model is exhausted; it is not a behaviour of the Rust code.

    The lexer's token type, the [ast] node kinds, the [symtable] type
    expressions and the [sema] type oracle are not under src/; their
    definitions below are modelled from the spec and from the way parser.rs
    uses them.  Error messages keep the literal words of the Rust [format!]
    strings; the Debug renderings of tokens, types and positions spliced into
    them are not modelled. *)

From Stdlib Require Import String List ZArith Bool Lia PrimFloat.
Import ListNotations.
Open Scope string_scope.
Set Warnings "-register-all".

(** ** Tokens (lexer::TokType) *)

(** Modelled from the spec: the lexer's token type, restricted to the
    variants parser.rs mentions.  Integer constants carry an [i64] (here a
    [Z]), floating constants an [f64] (a primitive float), string literals
    their text and an encoding tag. *)
Inductive TokType : Type :=
| ALIGNAS | ALIGNOF | ATOMIC | AUTO | BOOL | BREAK | CASE | CHAR | COMPLEX
| CONST | CONTINUE | DEFAULT | DO | DOUBLE | ELSE | ENUM | EXTERN | FLOAT
| FOR | GENERIC | GOTO | IF | IMAGINARY | INLINE | INT | LONG | NORETURN
| REGISTER | RESTRICT | RETURN | SHORT | SIGNED | SIZEOF | STATIC | STRUCT
| SWITCH | TYPEDEF | UNION | UNSIGNED | VOID | VOLATILE | WHILE
| StaticAssert | ThreadLocal | TypedefName | FuncName
| IDENTIFIER (name : string)
| IConstant (v : Z)
| FConstant (v : float)
| EnumerationConstant (name : string)
| StringLiteral (text : string) (tag : string)
| AddAssign | And | AndAssign | AndOp | Assign | Colon | Comma | DecOp
| DivAssign | Dot | ELLIPSIS | EqOp | Exclamation | ExclusiveOr | GeOp | Gt
| IncOp | InclusiveOr | LBrace | LBracket | LParen | LeOp | LeftAssign
| LeftOp | Lt | Minus | Mod | ModAssign | MulAssign | Multi | NeOp
| OrAssign | OrOp | Plus | PtrOp | QuestionMark | RBrace | RBracket | RParen
| RightAssign | RightOp | Semicolon | SingleAnd | Splash | SubAssign
| Tilde | XorAssign.

(** Constructor index of a token, used by the derived equality below. *)
Definition tok_tag (t : TokType) : nat :=
  match t with
  | ALIGNAS => 0 | ALIGNOF => 1 | ATOMIC => 2 | AUTO => 3 | BOOL => 4
  | BREAK => 5 | CASE => 6 | CHAR => 7 | COMPLEX => 8 | CONST => 9
  | CONTINUE => 10 | DEFAULT => 11 | DO => 12 | DOUBLE => 13 | ELSE => 14
  | ENUM => 15 | EXTERN => 16 | FLOAT => 17 | FOR => 18 | GENERIC => 19
  | GOTO => 20 | IF => 21 | IMAGINARY => 22 | INLINE => 23 | INT => 24
  | LONG => 25 | NORETURN => 26 | REGISTER => 27 | RESTRICT => 28
  | RETURN => 29 | SHORT => 30 | SIGNED => 31 | SIZEOF => 32 | STATIC => 33
  | STRUCT => 34 | SWITCH => 35 | TYPEDEF => 36 | UNION => 37
  | UNSIGNED => 38 | VOID => 39 | VOLATILE => 40 | WHILE => 41
  | StaticAssert => 42 | ThreadLocal => 43 | TypedefName => 44
  | FuncName => 45 | IDENTIFIER _ => 46 | IConstant _ => 47
  | FConstant _ => 48 | EnumerationConstant _ => 49
  | StringLiteral _ _ => 50 | AddAssign => 51 | And => 52 | AndAssign => 53
  | AndOp => 54 | Assign => 55 | Colon => 56 | Comma => 57 | DecOp => 58
  | DivAssign => 59 | Dot => 60 | ELLIPSIS => 61 | EqOp => 62
  | Exclamation => 63 | ExclusiveOr => 64 | GeOp => 65 | Gt => 66
  | IncOp => 67 | InclusiveOr => 68 | LBrace => 69 | LBracket => 70
  | LParen => 71 | LeOp => 72 | LeftAssign => 73 | LeftOp => 74 | Lt => 75
  | Minus => 76 | Mod => 77 | ModAssign => 78 | MulAssign => 79
  | Multi => 80 | NeOp => 81 | OrAssign => 82 | OrOp => 83 | Plus => 84
  | PtrOp => 85 | QuestionMark => 86 | RBrace => 87 | RBracket => 88
  | RParen => 89 | RightAssign => 90 | RightOp => 91 | Semicolon => 92
  | SingleAnd => 93 | Splash => 94 | SubAssign => 95 | Tilde => 96
  | XorAssign => 97
  end.

(** [#[derive(PartialEq)]] on [TokType]: same variant and equal payloads,
    floats compared with IEEE equality as Rust's [f64 == f64]. *)
Definition tok_eqb (a b : TokType) : bool :=
  match a, b with
  | IDENTIFIER x, IDENTIFIER y => String.eqb x y
  | IConstant x, IConstant y => Z.eqb x y
  | FConstant x, FConstant y => PrimFloat.eqb x y
  | EnumerationConstant x, EnumerationConstant y => String.eqb x y
  | StringLiteral x t, StringLiteral y u => String.eqb x y && String.eqb t u
  | _, _ => Nat.eqb (tok_tag a) (tok_tag b)
  end.

(** ** Type expressions (symtable) *)

Module Symtable.

(** Modelled from the spec: the base-type vocabulary of symtable, restricted
    to the variants parser.rs mentions. *)
Inductive BaseType : Type :=
| Array (len : nat) | Atomic | Auto | Bool | Char | Complex | Const | Double
| Extern | Float | Function | Identifier (name : string) | Imaginary
| Inline | Int | Long | NoneExpression | Noreturn | Pointer | Register
| Restrict | Short | Signed | SizeT | Static | Struct | ThreadLocal
| Typedef | Union | Unsigned | VaList | Void | VoidPointer | Volatile.

(** Modelled from the spec: a type expression is a value list (the flat
    specifiers, [val]) and an ordered list of child type expressions
    ([child]), the two fields parser.rs pushes onto. *)
Inductive TypeExpression : Type :=
  mkTypeExpression { val : list BaseType; child : list TypeExpression }.

(** Modelled from the spec: [TypeExpression::new()], the default annotation
    of a fresh node, with no value and no child. *)
Definition new : TypeExpression := mkTypeExpression [] [].

(** Modelled from the spec: [TypeExpression::new_val(b)], the type
    expression whose value list is [b]. *)
Definition new_val (b : BaseType) : TypeExpression := mkTypeExpression [b] [].

Definition push_val (t : TypeExpression) (b : BaseType) : TypeExpression :=
  mkTypeExpression (val t ++ [b]) (child t).

Definition push_child (t : TypeExpression) (c : TypeExpression) : TypeExpression :=
  mkTypeExpression (val t) (child t ++ [c]).

End Symtable.

Import Symtable (BaseType, TypeExpression, new_val).

(** ** Parse nodes (ast) *)

Module Ast.

Inductive ConstantType : Type :=
| I64 (v : Z) | F64 (v : float) | String (s : string).

(** Modelled from the spec: the node kinds of ast::NodeType that parser.rs
    builds, each with the payload it is built with. *)
Inductive NodeType : Type :=
| AbstractDeclarator | AdditiveExpression | AlignmentSpecifier
| AndExpression | ArgumentExpressionList | AssignmentExpression
| AssignmentOperator (op : TokType) | AtomicTypeSpecifier
| BinaryExpression (op : TokType) | BlockItem | BlockItemList
| CastExpression | CompoundStatement | ConditionalExpression
| Constant (c : ConstantType) | ConstantExpression | Declaration
| DeclarationList | DeclarationSpecifiers | Declarator | Designation
| Designator | DesignatorList | DirectAbstractDeclarator
| DirectAbstractDeclaratorBlock (punc : TokType) | DirectDeclarator
| DirectDeclaratorPost (punc : TokType) | DirectDeclaratorPostList
| EnumSpecifier (name : option string) | EnumerationConstant (name : string)
| Enumerator | EnumeratorList | EqualityExpression | ExclusiveOrExpression
| Expression | ExpressionStatement | ExternalDeclaration
| FunctionDefinition | FunctionSpecifier (t : TokType) | GenericAssocList
| GenericAssociation | GenericSelection | Identifier (name : string)
| IdentifierList | InclusiveOrExpression | InitDeclarator
| InitDeclaratorList | Initializer | InitializerList
| IterationStatement (kw : TokType)
| JumpStatement (kw : string) (label : option string)
| LabeledStatement (key : string) | LogicalAndExpression
| LogicalOrExpression | MultiplicativeExpression | ParameterDeclaration
| ParameterList | ParameterTypeList (has_var_arg_list : bool) | Pointer
| PostfixExpression | PostfixExpressionPost (punc : TokType)
| PrimaryExpression | RelationalExpression | STRING (s : string)
| SelectionStatement (kw : TokType) | ShiftExpression | SpecifierQualifier
| Statement | StaticAssertDeclaration | StructDeclaration
| StructDeclarationList | StructDeclarator | StructDeclaratorList
| StructOrUnion (t : TokType) | StructOrUnionSpecifier | TranslationUnit
| TypeName | TypeQualifier (t : TokType) | TypeQualifierList
| TypeSpecifier (t : option TokType) | UnaryExpression (op : option TokType)
| UnaryOperator (op : TokType).

(** ast::ParseNode: a kind, the children in order, and a type annotation. *)
Inductive ParseNode : Type :=
  mkParseNode { entry : NodeType; child : list ParseNode;
                type_exp : TypeExpression }.

(** [ParseNode::new(entry)]: no child, default type expression. *)
Definition new (e : NodeType) : ParseNode := mkParseNode e [] Symtable.new.

(** [cur_node.child.push(c)] *)
Definition push_child (n c : ParseNode) : ParseNode :=
  mkParseNode (entry n) (child n ++ [c]) (type_exp n).

(** [cur_node.type_exp = t] *)
Definition set_type (n : ParseNode) (t : TypeExpression) : ParseNode :=
  mkParseNode (entry n) (child n) t.

(** [cur_node.type_exp.child.push(t)] *)
Definition push_type_child (n : ParseNode) (t : TypeExpression) : ParseNode :=
  mkParseNode (entry n) (child n) (Symtable.push_child (type_exp n) t).

(** [cur_node.type_exp.val.push(b)] *)
Definition push_type_val (n : ParseNode) (b : BaseType) : ParseNode :=
  mkParseNode (entry n) (child n) (Symtable.push_val (type_exp n) b).

(** [cur_node.entry = e] *)
Definition set_entry (n : ParseNode) (e : NodeType) : ParseNode :=
  mkParseNode e (child n) (type_exp n).

End Ast.

Import Ast (NodeType, ParseNode, ConstantType, entry, child, type_exp, new,
  push_child, set_type, push_type_child, push_type_val, set_entry).

(** ** Outcomes *)

Inductive Outcome (A : Type) : Type :=
| Ok (a : A)
| Err (msg : string)
| Panic
| OutOfFuel.
Arguments Ok {A} a.
Arguments Err {A} msg.
Arguments Panic {A}.
Arguments OutOfFuel {A}.

(** The [?] operator: an error returns from the function, a panic unwinds. *)
Definition bind {A B} (r : Outcome A) (k : A -> Outcome B) : Outcome B :=
  match r with
  | Ok a => k a
  | Err m => Err m
  | Panic => Panic
  | OutOfFuel => OutOfFuel
  end.

(** [if let Ok(x) = r { k x } else { els }]: only an [Err] selects the
    else branch; a panic still unwinds. *)
Definition if_ok {A B} (r : Outcome A) (k : A -> Outcome B)
    (els : string -> Outcome B) : Outcome B :=
  match r with
  | Ok a => k a
  | Err m => els m
  | Panic => Panic
  | OutOfFuel => OutOfFuel
  end.

(** [toks[pos]]: out of range, Rust panics. *)
Definition at_index {B} (toks : list TokType) (pos : nat)
    (k : TokType -> Outcome B) : Outcome B :=
  match nth_error toks pos with
  | Some t => k t
  | None => Panic
  end.

Notation "'let?' ' p ':=' r 'in' k" :=
  (bind r (fun x => match x with p => k end))
  (at level 200, p pattern, r at level 100, k at level 200).
Notation "'let?' x ':=' r 'in' k" :=
  (bind r (fun x => k))
  (at level 200, x name, r at level 100, k at level 200).

Definition Parser : Type := list TokType -> nat -> Outcome (ParseNode * nat).

(** ** The type oracle (sema) *)

(** Modelled from the spec: the call contract of the sema module, which
    parser.rs consults.  [judge_cast to from] is the cast legality,
    [judge_combine_type l r op] the binary-operand combination (accepted and
    result type), [judge_type_same] the type equality and
    [implicit_type_cast l r] the implicit conversion of an assignment, which
    may fail with a message. *)
Class Sema : Type := {
  judge_cast : TypeExpression -> TypeExpression -> bool;
  judge_combine_type : TypeExpression -> TypeExpression -> TokType ->
                       bool * TypeExpression;
  judge_type_same : TypeExpression -> TypeExpression -> bool;
  implicit_type_cast : TypeExpression -> TypeExpression ->
                       TypeExpression + string
}.

Definition base_eq_dec (a b : BaseType) : {a = b} + {a <> b}.
Proof. decide equality; [apply Nat.eq_dec | apply string_dec]. Defined.

Definition base_eqb (a b : BaseType) : bool :=
  if base_eq_dec a b then true else false.

(** Structural equality of type expressions. *)
Fixpoint te_eqb (a b : TypeExpression) : bool :=
  match a, b with
  | Symtable.mkTypeExpression va ca, Symtable.mkTypeExpression vb cb =>
      (fix vals (l1 l2 : list BaseType) : bool :=
         match l1, l2 with
         | [], [] => true
         | x :: xs, y :: ys => base_eqb x y && vals xs ys
         | _, _ => false
         end) va vb &&
      (fix kids (l1 l2 : list TypeExpression) : bool :=
         match l1, l2 with
         | [], [] => true
         | x :: xs, y :: ys => te_eqb x y && kids xs ys
         | _, _ => false
         end) ca cb
  end.

(** Rank of an arithmetic scalar type in the usual arithmetic conversions;
    [None] for every other type expression. *)
Definition arith_rank (t : TypeExpression) : option nat :=
  match Symtable.val t, Symtable.child t with
  | [Symtable.Bool], [] => Some 0
  | [Symtable.Char], [] => Some 1
  | [Symtable.Short], [] => Some 2
  | [Symtable.Int], [] => Some 3
  | [Symtable.Signed], [] => Some 3
  | [Symtable.Unsigned], [] => Some 3
  | [Symtable.Long], [] => Some 4
  | [Symtable.Float], [] => Some 5
  | [Symtable.Double], [] => Some 6
  | _, _ => None
  end.

Definition is_aggregate (t : TypeExpression) : bool :=
  let agg b := base_eqb b Symtable.Struct || base_eqb b Symtable.Union in
  existsb agg (Symtable.val t) ||
  existsb (fun c => existsb agg (Symtable.val c)) (Symtable.child t).

(** Modelled from the spec: one concrete type oracle, used only to run the
    parser on examples.  Type equality is structural equality; a cast is
    legal unless it converts between a struct/union and a non-aggregate (the
    spec's example of a rejected cast); two arithmetic scalars combine to
    the one of higher rank (usual arithmetic conversion) and anything else is
    rejected; an assignment converts to the left type when both sides are
    arithmetic or equal. *)
Definition spec_sema : Sema := {|
  judge_cast := fun to from => Bool.eqb (is_aggregate to) (is_aggregate from);
  judge_combine_type := fun l r _ =>
    match arith_rank l, arith_rank r with
    | Some a, Some b => (true, if Nat.ltb a b then r else l)
    | _, _ => (false, l)
    end;
  judge_type_same := te_eqb;
  implicit_type_cast := fun l r =>
    match arith_rank l, arith_rank r with
    | Some _, Some _ => inl l
    | _, _ => if te_eqb l r then inl l else inr "can not assign"
    end
|}.

(** ** Cursor primitives and token-level rules *)

(** [error_handler(expect, tok, pos)] *)
Definition error_handler (expect : string) : string :=
  "Expected `" ++ expect ++ "`, found".

Definition check_pos (pos toks_len : nat) : Outcome unit :=
  if Nat.leb toks_len pos then Err "out of token index" else Ok tt.

Definition check_tok (pos : nat) (toks : list TokType) (expect : TokType)
    : Outcome unit :=
  let? _ := check_pos pos (length toks) in
  at_index toks pos (fun t =>
    if negb (tok_eqb t expect) then Err "Expected: , found" else Ok tt).

Definition p_identifier (toks : list TokType) (pos : nat)
    : Outcome (ParseNode * nat) :=
  let? _ := check_pos pos (length toks) in
  at_index toks pos (fun t =>
    match t with
    | IDENTIFIER v =>
        Ok (set_type (new (Ast.Identifier v)) (new_val (Symtable.Identifier v)),
            pos + 1)
    | _ => Err (error_handler "identifier")
    end).

Definition p_constant (toks : list TokType) (pos : nat)
    : Outcome (ParseNode * nat) :=
  let? _ := check_pos pos (length toks) in
  at_index toks pos (fun t =>
    match t with
    | IConstant i_val =>
        (* cause if the value was assigned to int, we can easily cast long
           to int. *)
        Ok (set_type (new (Ast.Constant (Ast.I64 i_val))) (new_val Symtable.Long),
            pos + 1)
    | FConstant f_val =>
        Ok (set_type (new (Ast.Constant (Ast.F64 f_val))) (new_val Symtable.Double),
            pos + 1)
    | EnumerationConstant e_val =>
        Ok (set_type (new (Ast.Constant (Ast.String e_val))) (new_val Symtable.Long),
            pos + 1)
    | _ => Err (error_handler "constant")
    end).

Definition p_enumeration_constant (toks : list TokType) (pos : nat)
    : Outcome (ParseNode * nat) :=
  let? _ := check_pos pos (length toks) in
  at_index toks pos (fun t =>
    match t with
    | IDENTIFIER name =>
        Ok (set_type (new (Ast.EnumerationConstant name))
              (new_val (Symtable.Identifier name)), pos + 1)
    | _ => Err (error_handler "identifier")
    end).

Definition p_string (toks : list TokType) (pos : nat)
    : Outcome (ParseNode * nat) :=
  let? _ := check_pos pos (length toks) in
  at_index toks pos (fun t =>
    match t with
    | StringLiteral v _tag =>
        let t_exp := Symtable.push_val (new_val (Symtable.Array (String.length v)))
                       Symtable.Char in
        Ok (set_type (new (Ast.STRING v)) t_exp, pos + 1)
    | FuncName =>
        let t_exp := Symtable.push_val
                       (new_val (Symtable.Array (String.length "__func_name__")))
                       Symtable.Char in
        Ok (set_type (new (Ast.STRING "__func_name__")) t_exp, pos + 1)
    | _ => Err (error_handler "String literal")
    end).

Definition p_unary_operator (toks : list TokType) (pos : nat)
    : Outcome (ParseNode * nat) :=
  let? _ := check_pos pos (length toks) in
  at_index toks pos (fun t =>
    match t with
    | Minus | SingleAnd | Multi | Exclamation | Tilde | Plus =>
        Ok (new (Ast.UnaryOperator t), pos + 1)
    | _ => Err (error_handler "unary_operator")
    end).

Definition p_assignment_operator (toks : list TokType) (pos : nat)
    : Outcome (ParseNode * nat) :=
  let? _ := check_pos pos (length toks) in
  at_index toks pos (fun t =>
    match t with
    | Assign | MulAssign | DivAssign | ModAssign | AddAssign | SubAssign
    | LeftAssign | RightAssign | AndAssign | XorAssign | OrAssign =>
        Ok (new (Ast.AssignmentOperator t), pos + 1)
    | _ => Err (error_handler "Assignment operator")
    end).

Definition p_storage_class_specifier (toks : list TokType) (pos : nat)
    : Outcome (ParseNode * nat) :=
  let? _ := check_pos pos (length toks) in
  at_index toks pos (fun t =>
    let spec b := Ok (set_type (new (Ast.TypeSpecifier (Some t))) (new_val b),
                      pos + 1) in
    match t with
    | TYPEDEF => Err "Typedef is not supported in crust now"
    | EXTERN => spec Symtable.Extern
    | STATIC => spec Symtable.Static
    | ThreadLocal => spec Symtable.ThreadLocal
    | AUTO => spec Symtable.Auto
    | REGISTER => spec Symtable.Register
    | _ => Err (error_handler "storage_class_specifier")
    end).

Definition p_struct_or_union (toks : list TokType) (pos : nat)
    : Outcome (ParseNode * nat) :=
  let? _ := check_pos pos (length toks) in
  at_index toks pos (fun t =>
    match t with
    | STRUCT => Ok (set_type (new (Ast.StructOrUnion t)) (new_val Symtable.Struct),
                    pos + 1)
    | UNION => Ok (set_type (new (Ast.StructOrUnion t)) (new_val Symtable.Union),
                   pos + 1)
    | _ => Err (error_handler "struct or union")
    end).

Definition p_type_qualifier (toks : list TokType) (pos : nat)
    : Outcome (ParseNode * nat) :=
  let? _ := check_pos pos (length toks) in
  at_index toks pos (fun t =>
    let qual b := Ok (set_type (new (Ast.TypeQualifier t)) (new_val b), pos + 1) in
    match t with
    | CONST => qual Symtable.Const
    | RESTRICT => qual Symtable.Restrict
    | VOLATILE => qual Symtable.Volatile
    | ATOMIC => qual Symtable.Atomic
    | _ => Err (error_handler "[const, restricted, volatile, atomic]")
    end).

Definition p_function_specifier (toks : list TokType) (pos : nat)
    : Outcome (ParseNode * nat) :=
  let? _ := check_pos pos (length toks) in
  at_index toks pos (fun t =>
    match t with
    | INLINE => Ok (set_type (new (Ast.FunctionSpecifier t)) (new_val Symtable.Inline),
                    pos + 1)
    | NORETURN => Ok (set_type (new (Ast.FunctionSpecifier t))
                        (new_val Symtable.Noreturn), pos + 1)
    | _ => Err (error_handler "[inline, noreturn]")
    end).

(** ** The grammar *)

Section Parser.

Context {SM : Sema}.

(** *** Binary-operator precedence levels

    The ten functions p_multiplicative_expression ... p_logical_or_expression
    of parser.rs share one body and differ only in their node kind, their
    operator set and the next-higher level they call:

      check_pos(pos, toks.len())?;
      let mut cur_node = ParseNode::new(KIND);
      let (child_node, pos) = NEXT(toks, pos)?;
      let mut l_type = child_node.type_exp.clone();
      let mut tok = &toks[pos];
      if tok is not an operator { cur_node.type_exp = l_type;
                                  cur_node.child.push(child_node);
                                  return Ok((cur_node, pos)); }
      while tok is an operator { ...fold...; tok = &toks[pos]; }
      cur_node.type_exp = child_node.type_exp.clone();
      cur_node.child.push(child_node);
      return Ok((cur_node, pos));

    [cascade_level] is that body, [cascade_loop] its [while] loop.  The loop
    makes at most [S (length toks)] turns before [OutOfFuel]; each turn
    consumes an operator token. *)

Section Cascade.

Variable kind : NodeType.
Variable is_op : TokType -> bool.
Variable next : Parser.

(** One turn of the loop starts with [tok = toks[pos]], an operator. *)
Fixpoint cascade_loop (k : nat) (toks : list TokType) (child_node : ParseNode)
    (l_type : TypeExpression) (tok : TokType) (pos : nat)
    : Outcome (ParseNode * nat) :=
  match k with
  | O => OutOfFuel
  | S k =>
      let bincur_node := new (Ast.BinaryExpression tok) in
      let pos := pos + 1 in
      let op := tok in
      let? '(next_child_node, tmp_pos) := next toks pos in
      let r_type := type_exp next_child_node in
      let pos := tmp_pos in
      let bincur_node := push_child (push_child bincur_node child_node)
                           next_child_node in
      match judge_combine_type l_type r_type op with
      | (true, combine_type) =>
          let child_node := set_type bincur_node combine_type in
          let l_type := type_exp child_node in
          at_index toks pos (fun tok =>
            if is_op tok then cascade_loop k toks child_node l_type tok pos
            else Ok (push_child (set_type (new kind) (type_exp child_node))
                       child_node, pos))
      | (false, _) => Err "can not use type:  to  type , "
      end
  end.

Definition cascade_level (toks : list TokType) (pos : nat)
    : Outcome (ParseNode * nat) :=
  let? _ := check_pos pos (length toks) in
  let cur_node := new kind in
  let? '(child_node, tmp_pos) := next toks pos in
  let l_type := type_exp child_node in
  let pos := tmp_pos in
  at_index toks pos (fun tok =>
    if negb (is_op tok) then
      Ok (push_child (set_type cur_node l_type) child_node, pos)
    else cascade_loop (S (length toks)) toks child_node l_type tok pos).

End Cascade.

Definition is_multiplicative_op (t : TokType) : bool :=
  match t with Mod | Multi | Splash => true | _ => false end.
Definition is_additive_op (t : TokType) : bool :=
  match t with Plus | Minus => true | _ => false end.
Definition is_shift_op (t : TokType) : bool :=
  match t with LeftOp | RightOp => true | _ => false end.
Definition is_relational_op (t : TokType) : bool :=
  match t with Lt | Gt | GeOp | LeOp => true | _ => false end.
Definition is_equality_op (t : TokType) : bool :=
  match t with EqOp | NeOp => true | _ => false end.
Definition is_and_op (t : TokType) : bool :=
  match t with SingleAnd => true | _ => false end.
Definition is_exclusive_or_op (t : TokType) : bool :=
  match t with ExclusiveOr => true | _ => false end.
Definition is_inclusive_or_op (t : TokType) : bool :=
  match t with InclusiveOr => true | _ => false end.
Definition is_logical_and_op (t : TokType) : bool :=
  match t with AndOp => true | _ => false end.
Definition is_logical_or_op (t : TokType) : bool :=
  match t with OrOp => true | _ => false end.

(** *** List loops

    [many item] is the loop
      while let Ok((child_node, tmp_pos)) = item(toks, pos) {
          inc += 1;
          cur_node.type_exp.child.push(child_node.type_exp.clone());
          cur_node.child.push(child_node);
          pos = tmp_pos;
      }
    and [sep_items item] the loop
      loop {
          if let Err(_) = check_tok(pos, &toks, &TokType::Comma) { break; }
          else { pos = pos + 1; }
          match item(toks, pos) {
              Ok((child_node, tmp_pos)) => { inc += 1; <push as above>;
                                             pos = tmp_pos }
              Err(_) => { pos = pos - 1; break; }
          }
      }
    both returning the node, [inc] and [pos]. *)

Fixpoint many (item : Parser) (k : nat) (toks : list TokType)
    (cur_node : ParseNode) (inc pos : nat) : Outcome (ParseNode * nat * nat) :=
  match k with
  | O => OutOfFuel
  | S k =>
      if_ok (item toks pos)
        (fun '(child_node, tmp_pos) =>
           many item k toks
             (push_child (push_type_child cur_node (type_exp child_node)) child_node)
             (inc + 1) tmp_pos)
        (fun _ => Ok (cur_node, inc, pos))
  end.

Fixpoint sep_items (item : Parser) (k : nat) (toks : list TokType)
    (cur_node : ParseNode) (inc pos : nat) : Outcome (ParseNode * nat * nat) :=
  match k with
  | O => OutOfFuel
  | S k =>
      if_ok (check_tok pos toks Comma)
        (fun _ =>
           let pos := pos + 1 in
           if_ok (item toks pos)
             (fun '(child_node, tmp_pos) =>
                sep_items item k toks
                  (push_child (push_type_child cur_node (type_exp child_node))
                     child_node)
                  (inc + 1) tmp_pos)
             (fun _ => Ok (cur_node, inc, pos - 1)))
        (fun _ => Ok (cur_node, inc, pos))
  end.

(** [if inc == 0 { cur_node.type_exp = pre_type; }] *)
Definition keep_single (cur_node : ParseNode) (pre_type : TypeExpression)
    (inc : nat) : ParseNode :=
  if Nat.eqb inc 0 then set_type cur_node pre_type else cur_node.

Definition p_type_qualifier_list (toks : list TokType) (pos : nat)
    : Outcome (ParseNode * nat) :=
  let? _ := check_pos pos (length toks) in
  let cur_node := new Ast.TypeQualifierList in
  let? '(child_node, pos) := p_type_qualifier toks pos in
  let cur_node := push_child (push_type_child cur_node (type_exp child_node))
                    child_node in
  let? '(cur_node, _, pos) :=
    many p_type_qualifier (S (length toks)) toks cur_node 0 pos in
  Ok (cur_node, pos).

Definition p_identifier_list (toks : list TokType) (pos : nat)
    : Outcome (ParseNode * nat) :=
  let? _ := check_pos pos (length toks) in
  let cur_node := new Ast.IdentifierList in
  let? '(child_node, pos) := p_identifier toks pos in
  let pre_type := type_exp child_node in
  let cur_node := push_child (push_type_child cur_node (type_exp child_node))
                    child_node in
  let? '(cur_node, inc, pos) :=
    sep_items p_identifier (S (length toks)) toks cur_node 0 pos in
  Ok (keep_single cur_node pre_type inc, pos).

(** [cur_node.type_exp = c.type_exp.clone(); cur_node.child.push(c);
     return Ok((cur_node, pos));] *)
Definition adopt (cur_node c : ParseNode) (pos : nat) : Outcome (ParseNode * nat) :=
  Ok (push_child (set_type cur_node (type_exp c)) c, pos).

(** [cur_node.type_exp.child.push(c.type_exp.clone()); cur_node.child.push(c);] *)
Definition attach (cur_node c : ParseNode) : ParseNode :=
  push_child (push_type_child cur_node (type_exp c)) c.

Definition none_expression : TypeExpression := new_val Symtable.NoneExpression.

(** The loop of p_translation_unit:
      loop {
          if pos >= toks.len() { break; }
          let (child_node, tmp_pos) = p_external_declaration(toks, pos)?;
          cur_node.type_exp.child.push(child_node.type_exp.clone());
          cur_node.child.push(child_node);
          pos = tmp_pos;
      } *)
Fixpoint translation_unit_loop (ext : Parser) (k : nat) (toks : list TokType)
    (cur_node : ParseNode) (pos : nat) : Outcome (ParseNode * nat) :=
  match k with
  | O => OutOfFuel
  | S k =>
      if Nat.leb (length toks) pos then Ok (cur_node, pos) else
      let? '(child_node, tmp_pos) := ext toks pos in
      translation_unit_loop ext k toks (attach cur_node child_node) tmp_pos
  end.

End Parser.


(** *** The recursive grammar

    Each [fn p_...] of parser.rs that reaches another grammar function is
    written as [p_..._body call fuel], the Rust body with every call
    [p_x(toks, pos)] to a grammar function written [call NT_x toks pos].
    [run] ties the knot: [run (S fuel) nt] is the body of [nt] with
    [call := run fuel], [run 0 nt] is [OutOfFuel], and [p_x fuel] is
    [run fuel NT_x].  Loops inside a body make at most [fuel] turns.
    [if let Ok(..) = f(..)] is [if_ok], [?] is [let?], and an index
    [toks[pos]] that is not preceded by a bounds check is [at_index]. *)

Section Grammar.

Context {SM : Sema}.

(** The condition test of p_conditional_expression: the condition's type is
    the same as one of [int], [bool], [long], [signed], [unsigned], [char]. *)
Definition is_condition_type (t : TypeExpression) : bool :=
  judge_type_same t (new_val Symtable.Int)
  || judge_type_same t (new_val Symtable.Bool)
  || judge_type_same t (new_val Symtable.Long)
  || judge_type_same t (new_val Symtable.Signed)
  || judge_type_same t (new_val Symtable.Unsigned)
  || judge_type_same t (new_val Symtable.Char).

(** The test of p_enumerator on an enumerator's value. *)
Definition is_enumerator_type (t : TypeExpression) : bool :=
  judge_type_same t (new_val Symtable.Int)
  || judge_type_same t (new_val Symtable.Bool)
  || judge_type_same t (new_val Symtable.Long)
  || judge_type_same t (new_val Symtable.Signed)
  || judge_type_same t (new_val Symtable.Unsigned).

(** The grammar functions, one per [fn p_...] that reaches another one. *)
Inductive NT : Type :=
| NT_primary_expression
| NT_generic_selection
| NT_generic_assoc_list
| NT_generic_association
| NT_postfix_expression
| NT_postfix_expression_post
| NT_argument_expression_list
| NT_unary_expression
| NT_cast_expression
| NT_multiplicative_expression
| NT_additive_expression
| NT_shift_expression
| NT_relational_expression
| NT_equality_expression
| NT_and_expression
| NT_exclusive_or_expression
| NT_inclusive_or_expression
| NT_logical_and_expression
| NT_logical_or_expression
| NT_conditional_expression
| NT_assignment_expression
| NT_expression
| NT_constant_expression
| NT_declaration
| NT_declaration_specifiers
| NT_init_declarator_list
| NT_init_declarator
| NT_type_specifier
| NT_struct_or_union_specifier
| NT_struct_declaration_list
| NT_struct_declaration
| NT_specifier_qualifier_list
| NT_struct_declarator_list
| NT_struct_declarator
| NT_enum_specifier
| NT_enumerator_list
| NT_enumerator
| NT_atomic_type_specifier
| NT_alignment_specifier
| NT_declarator
| NT_direct_declarator
| NT_direct_declarator_post_list
| NT_direct_declarator_post
| NT_pointer
| NT_parameter_type_list
| NT_parameter_list
| NT_parameter_declaration
| NT_type_name
| NT_abstract_declarator
| NT_direct_abstract_declarator
| NT_direct_abstract_declarator_block
| NT_initializer
| NT_initializer_list
| NT_designation
| NT_designator_list
| NT_designator
| NT_static_assert_declaration
| NT_statement
| NT_labeled_statement
| NT_compound_statement
| NT_block_item_list
| NT_block_item
| NT_expression_statement
| NT_selection_statement
| NT_iteration_statement
| NT_jump_statement
| NT_external_declaration
| NT_function_definition
| NT_declaration_list
| NT_translation_unit
.

Definition p_primary_expression_body (call : NT -> Parser) (fuel : nat)
    (toks : list TokType) (pos : nat) : Outcome (ParseNode * nat) :=
  let? _ := check_pos pos (length toks) in
  let cur_node := new Ast.PrimaryExpression in
  if_ok (p_identifier toks pos) (fun '(c, new_pos) => adopt cur_node c new_pos)
  (fun _ =>
  if_ok (p_constant toks pos) (fun '(c, new_pos) => adopt cur_node c new_pos)
  (fun _ =>
  if_ok (p_string toks pos) (fun '(c, new_pos) => adopt cur_node c new_pos)
  (fun _ =>
  if_ok (check_tok pos toks LParen)
    (fun _ =>
       let pos := pos + 1 in
       let? '(child_node, pos) := call NT_expression toks pos in
       let cur_node := push_child (set_type cur_node (type_exp child_node))
                         child_node in
       let? _ := check_tok pos toks RParen in
       Ok (cur_node, pos + 1))
  (fun _ =>
  if_ok (call NT_generic_selection toks pos)
    (fun '(c, new_pos) => adopt cur_node c new_pos)
  (fun _ => Err "Can not parse primary expression"))))).

Definition p_generic_selection_body (call : NT -> Parser) (fuel : nat)
    (toks : list TokType) (pos : nat) : Outcome (ParseNode * nat) :=
  let? _ := check_pos pos (length toks) in
  let cur_node := new Ast.GenericSelection in
  at_index toks pos (fun t =>
  if negb (tok_eqb t GENERIC) then Err (error_handler "__Generic") else
  let pos := pos + 1 in
  let? _ := check_tok pos toks LParen in
  let pos := pos + 1 in
  let? _ := check_pos pos (length toks) in
  let? '(child_node, pos) := call NT_assignment_expression toks pos in
  let cur_node := push_child cur_node child_node in
  let? _ := check_tok pos toks Comma in
  let pos := pos + 1 in
  let? '(child_node, pos) := call NT_generic_assoc_list toks pos in
  let cur_node := push_child cur_node child_node in
  let? _ := check_tok pos toks RParen in
  Ok (cur_node, pos + 1)).

Definition p_generic_assoc_list_body (call : NT -> Parser) (fuel : nat)
    (toks : list TokType) (pos : nat) : Outcome (ParseNode * nat) :=
  let? _ := check_pos pos (length toks) in
  let cur_node := new Ast.GenericAssocList in
  let? '(child_node, pos) := call NT_generic_association toks pos in
  let cur_node := push_child cur_node child_node in
  (fix loop (k : nat) (cur_node : ParseNode) (pos : nat) :=
     match k with O => OutOfFuel | S k =>
     if_ok (check_tok pos toks Comma)
       (fun _ =>
          let back_pos := pos in
          let pos := pos + 1 in
          if_ok (call NT_generic_association toks pos)
            (fun '(child_node, tmp) => loop k (push_child cur_node child_node) tmp)
            (fun _ => Ok (cur_node, back_pos)))
       (fun _ => Ok (cur_node, pos))
     end) fuel cur_node pos.

Definition p_generic_association_body (call : NT -> Parser) (fuel : nat)
    (toks : list TokType) (pos : nat) : Outcome (ParseNode * nat) :=
  if Nat.leb (length toks) pos then Err "out of token index" else
  let cur_node := new Ast.GenericAssociation in
  let rest (cur_node : ParseNode) (pos : nat) :=
    let? _ := check_tok pos toks Colon in
    let pos := pos + 1 in
    let? '(child_node, pos) := call NT_assignment_expression toks pos in
    Ok (push_child cur_node child_node, pos) in
  if_ok (call NT_type_name toks pos)
    (fun '(child_node, tmp_pos) => rest (push_child cur_node child_node) tmp_pos)
    (fun _ => at_index toks pos (fun t =>
       if tok_eqb t DEFAULT then rest cur_node (pos + 1)
       else Err "Can't find proper type name or default, found  at ")).

Definition p_postfix_expression_body (call : NT -> Parser) (fuel : nat)
    (toks : list TokType) (pos : nat) : Outcome (ParseNode * nat) :=
  let? _ := check_pos pos (length toks) in
  let cur_node := new Ast.PostfixExpression in
  (* the [loop] after a compound literal *)
  let post_loop :=
    fix post_loop (k : nat) (cur_node : ParseNode) (pos : nat) :=
      match k with O => OutOfFuel | S k =>
      if_ok (call NT_postfix_expression_post toks pos)
        (fun '(child_node, tmp_pos) =>
           post_loop k (attach cur_node child_node) tmp_pos)
        (fun _ => Ok (cur_node, pos))
      end in
  if_ok (call NT_primary_expression toks pos)
    (fun '(child_node, pos) =>
       let pre_type := type_exp child_node in
       let cur_node := attach cur_node child_node in
       (fix loop (k : nat) (cur_node : ParseNode) (inc pos : nat) :=
          match k with O => OutOfFuel | S k =>
          if_ok (call NT_postfix_expression_post toks pos)
            (fun '(child_node, tmp_pos) =>
               loop k (push_child cur_node child_node) (inc + 1) tmp_pos)
            (fun _ => Ok (keep_single cur_node pre_type inc, pos))
          end) fuel cur_node 0 pos)
  (fun _ =>
  if_ok (check_tok pos toks LParen)
    (fun _ =>
       let pos := pos + 1 in
       let? '(child_node, pos) := call NT_type_name toks pos in
       let cur_node := attach cur_node child_node in
       let? _ := check_tok pos toks RParen in
       let pos := pos + 1 in
       let? _ := check_tok pos toks LBrace in
       let pos := pos + 1 in
       let? '(child_node, pos) := call NT_initializer_list toks pos in
       let cur_node := attach cur_node child_node in
       if_ok (check_tok pos toks RBrace)
         (fun _ => post_loop fuel cur_node (pos + 1))
         (fun _ =>
            let? _ := check_tok pos toks Comma in
            let pos := pos + 1 in
            let? _ := check_tok pos toks RBrace in
            post_loop fuel cur_node (pos + 1)))
  (fun _ => Err "Error parse postfix_expression")).

Definition p_postfix_expression_post_body (call : NT -> Parser) (fuel : nat)
    (toks : list TokType) (pos : nat) : Outcome (ParseNode * nat) :=
  let? _ := check_pos pos (length toks) in
  at_index toks pos (fun t =>
  match t with
  | LBracket =>
      let cur_node := new (Ast.PostfixExpressionPost t) in
      let pos := pos + 1 in
      let? '(child_node, pos) := call NT_expression toks pos in
      let cur_node := push_child (set_type cur_node (type_exp child_node))
                        child_node in
      let? _ := check_tok pos toks RBracket in
      Ok (cur_node, pos + 1)
  | LParen =>
      let cur_node := new (Ast.PostfixExpressionPost t) in
      let pos := pos + 1 in
      if_ok (check_tok pos toks RParen)
        (fun _ => Ok (cur_node, pos + 1))
        (fun _ =>
           let? '(child_node, pos) := call NT_argument_expression_list toks pos in
           let cur_node := push_child (set_type cur_node (type_exp child_node))
                             child_node in
           let? _ := check_tok pos toks RParen in
           Ok (cur_node, pos + 1))
  | Dot | PtrOp =>
      let cur_node := new (Ast.PostfixExpressionPost t) in
      let pos := pos + 1 in
      let? '(child_node, pos) := p_identifier toks pos in
      Ok (push_child cur_node child_node, pos)
  | IncOp | DecOp => Ok (new (Ast.PostfixExpressionPost t), pos + 1)
  | _ => Err " at  is a postfix operator"
  end).

Definition p_argument_expression_list_body (call : NT -> Parser) (fuel : nat)
    (toks : list TokType) (pos : nat) : Outcome (ParseNode * nat) :=
  let? _ := check_pos pos (length toks) in
  let cur_node := new Ast.ArgumentExpressionList in
  let? '(child_node, pos) := call NT_assignment_expression toks pos in
  let pre_type := type_exp child_node in
  let cur_node := attach cur_node child_node in
  (fix loop (k : nat) (cur_node : ParseNode) (inc pos : nat) :=
     match k with O => OutOfFuel | S k =>
     if_ok (check_tok pos toks Comma)
       (fun _ =>
          if_ok (call NT_assignment_expression toks (pos + 1))
            (fun '(child_node, tmp) =>
               loop k (attach cur_node child_node) (inc + 1) tmp)
            (fun _ => Ok (keep_single cur_node pre_type inc, pos - 1)))
       (fun _ => Ok (keep_single cur_node pre_type inc, pos))
     end) fuel cur_node 0 pos.

Definition p_unary_expression_body (call : NT -> Parser) (fuel : nat)
    (toks : list TokType) (pos : nat) : Outcome (ParseNode * nat) :=
  let? _ := check_pos pos (length toks) in
  (* the [_] arm: [unary_operator cast_expression] or [postfix_expression] *)
  let default (_ : unit) :=
    if_ok (p_unary_operator toks pos)
      (fun '(child_node, pos) =>
         let cur_node := new (Ast.UnaryExpression None) in
         match entry child_node with
         | Ast.UnaryOperator unary_op =>
             let cur_node := push_child cur_node child_node in
             let? '(child_node, pos) := call NT_cast_expression toks pos in
             let cur_node :=
               match unary_op with
               | SingleAnd => set_type cur_node (new_val Symtable.Pointer)
               | Multi =>
                   set_type cur_node
                     (Symtable.push_val (new_val Symtable.Pointer)
                        Symtable.VoidPointer)
               | _ => set_type cur_node (type_exp child_node)
               end in
             Ok (push_child cur_node child_node, pos)
         | _ => Err "Syntax: expected unary_operator, got "
         end)
    (fun _ =>
    if_ok (call NT_postfix_expression toks pos)
      (fun '(child_node, pos) =>
         adopt (new (Ast.UnaryExpression None)) child_node pos)
    (fun _ => Err "Can't parse unary_expression")) in
  at_index toks pos (fun t =>
  match t with
  | IncOp | DecOp =>
      let cur_node := new (Ast.UnaryExpression (Some t)) in
      let pos := pos + 1 in
      let? '(child_node, pos) := call NT_unary_expression toks pos in
      adopt cur_node child_node pos
  | SIZEOF =>
      let pos := pos + 1 in
      at_index toks pos (fun t' =>
      let cur_node := new (Ast.UnaryExpression (Some t')) in
      if_ok (check_tok pos toks LParen)
        (fun _ =>
           let? '(child_node, pos) := call NT_type_name toks pos in
           Ok (push_child (set_type cur_node (new_val Symtable.SizeT)) child_node,
               pos))
        (fun _ =>
           let? '(child_node, pos) := call NT_unary_expression toks pos in
           Ok (push_child (set_type cur_node (new_val Symtable.SizeT)) child_node,
               pos)))
  | ALIGNOF =>
      let cur_node := new (Ast.UnaryExpression (Some t)) in
      let pos := pos + 1 in
      if_ok (check_tok pos toks LParen)
        (fun _ =>
           let pos := pos + 1 in
           let? '(child_node, pos) := call NT_type_name toks pos in
           Ok (push_child (set_type cur_node (new_val Symtable.SizeT)) child_node,
               pos))
        (fun _ => at_index toks pos (fun _ => Err (error_handler "(")))
  | _ => default tt
  end).

Definition p_cast_expression_body (call : NT -> Parser) (fuel : nat)
    (toks : list TokType) (pos : nat) : Outcome (ParseNode * nat) :=
  let? _ := check_pos pos (length toks) in
  let cur_node := new Ast.CastExpression in
  if_ok (call NT_unary_expression toks pos)
    (fun '(child_node, pos) => adopt cur_node child_node pos)
  (fun _ =>
  if_ok (check_tok pos toks LParen)
    (fun _ =>
       let? '(child_node, pos) := call NT_type_name toks (pos + 1) in
       let to_type := type_exp child_node in
       let cur_node := push_child cur_node child_node in
       let? _ := check_tok pos toks RParen in
       let? '(child_node, pos) := call NT_cast_expression toks pos in
       let from_type := type_exp child_node in
       if Bool.eqb (judge_cast to_type from_type) false
       then Err "Can not cast from  to "
       else Ok (push_child (set_type cur_node to_type) child_node, pos))
  (fun _ => Err "Error parse cast_expression")).

Definition p_multiplicative_expression_body (call : NT -> Parser) (fuel : nat)
    (toks : list TokType) (pos : nat) : Outcome (ParseNode * nat) :=
  cascade_level Ast.MultiplicativeExpression is_multiplicative_op
    (call NT_cast_expression) toks pos.

Definition p_additive_expression_body (call : NT -> Parser) (fuel : nat)
    (toks : list TokType) (pos : nat) : Outcome (ParseNode * nat) :=
  cascade_level Ast.AdditiveExpression is_additive_op
    (call NT_multiplicative_expression) toks pos.

Definition p_shift_expression_body (call : NT -> Parser) (fuel : nat)
    (toks : list TokType) (pos : nat) : Outcome (ParseNode * nat) :=
  cascade_level Ast.ShiftExpression is_shift_op
    (call NT_additive_expression) toks pos.

Definition p_relational_expression_body (call : NT -> Parser) (fuel : nat)
    (toks : list TokType) (pos : nat) : Outcome (ParseNode * nat) :=
  cascade_level Ast.RelationalExpression is_relational_op
    (call NT_shift_expression) toks pos.

Definition p_equality_expression_body (call : NT -> Parser) (fuel : nat)
    (toks : list TokType) (pos : nat) : Outcome (ParseNode * nat) :=
  cascade_level Ast.EqualityExpression is_equality_op
    (call NT_relational_expression) toks pos.

Definition p_and_expression_body (call : NT -> Parser) (fuel : nat)
    (toks : list TokType) (pos : nat) : Outcome (ParseNode * nat) :=
  cascade_level Ast.AndExpression is_and_op
    (call NT_equality_expression) toks pos.

Definition p_exclusive_or_expression_body (call : NT -> Parser) (fuel : nat)
    (toks : list TokType) (pos : nat) : Outcome (ParseNode * nat) :=
  cascade_level Ast.ExclusiveOrExpression is_exclusive_or_op
    (call NT_and_expression) toks pos.

Definition p_inclusive_or_expression_body (call : NT -> Parser) (fuel : nat)
    (toks : list TokType) (pos : nat) : Outcome (ParseNode * nat) :=
  cascade_level Ast.InclusiveOrExpression is_inclusive_or_op
    (call NT_exclusive_or_expression) toks pos.

Definition p_logical_and_expression_body (call : NT -> Parser) (fuel : nat)
    (toks : list TokType) (pos : nat) : Outcome (ParseNode * nat) :=
  cascade_level Ast.LogicalAndExpression is_logical_and_op
    (call NT_inclusive_or_expression) toks pos.

Definition p_logical_or_expression_body (call : NT -> Parser) (fuel : nat)
    (toks : list TokType) (pos : nat) : Outcome (ParseNode * nat) :=
  cascade_level Ast.LogicalOrExpression is_logical_or_op
    (call NT_logical_and_expression) toks pos.

Definition p_conditional_expression_body (call : NT -> Parser) (fuel : nat)
    (toks : list TokType) (pos : nat) : Outcome (ParseNode * nat) :=
  let? _ := check_pos pos (length toks) in
  let cur_node := new Ast.ConditionalExpression in
  if_ok (call NT_logical_or_expression toks pos)
    (fun '(child_node, pos) =>
       let cur_node := set_type cur_node (type_exp child_node) in
       if_ok (check_tok pos toks QuestionMark)
         (fun _ =>
            if is_condition_type (type_exp child_node) then
              let cur_node := push_child cur_node child_node in
              let pos := pos + 1 in
              let? '(child_node, pos) := call NT_expression toks pos in
              let l_type := type_exp child_node in
              let cur_node := push_child cur_node child_node in
              let? _ := check_tok pos toks Colon in
              let pos := pos + 1 in
              let? '(child_node, pos) := call NT_conditional_expression toks pos in
              let r_type := type_exp child_node in
              if Bool.eqb (judge_type_same l_type r_type) false
              then Err "Two option expression in Teneray Expression has different type"
              else Ok (push_child (set_type cur_node (type_exp child_node))
                         child_node, pos)
            else Err "Conditional Expression doesn't have logical expression")
         (fun _ => Ok (push_child cur_node child_node, pos)))
    (fun _ => Err "Error parse logical_or_expressiong").

Definition p_assignment_expression_body (call : NT -> Parser) (fuel : nat)
    (toks : list TokType) (pos : nat) : Outcome (ParseNode * nat) :=
  let? _ := check_pos pos (length toks) in
  let cur_node := new Ast.AssignmentExpression in
  let fallback (_ : unit) :=
    let? '(child_node, pos) := call NT_conditional_expression toks pos in
    adopt cur_node child_node pos in
  if_ok (call NT_unary_expression toks pos)
    (fun '(child_node1, pos1) =>
       if_ok (p_assignment_operator toks pos1)
         (fun '(child_node2, pos2) =>
            if_ok (call NT_assignment_expression toks pos2)
              (fun '(child_node3, pos3) =>
                 let l_type := type_exp child_node1 in
                 let r_type := type_exp child_node3 in
                 let cur_node := push_child (push_child (push_child cur_node
                                   child_node1) child_node2) child_node3 in
                 match implicit_type_cast l_type r_type with
                 | inl res_type => Ok (set_type cur_node res_type, pos3)
                 | inr msg => Err msg
                 end)
              (fun _ => fallback tt))
         (fun _ => fallback tt))
    (fun _ => fallback tt).

Definition p_expression_body (call : NT -> Parser) (fuel : nat)
    (toks : list TokType) (pos : nat) : Outcome (ParseNode * nat) :=
  let? _ := check_pos pos (length toks) in
  let cur_node := new Ast.Expression in
  let? '(child_node, pos) := call NT_assignment_expression toks pos in
  let pre_type := type_exp child_node in
  let cur_node := attach cur_node child_node in
  (fix loop (k : nat) (cur_node : ParseNode) (inc pos : nat) :=
     match k with O => OutOfFuel | S k =>
     if_ok (check_tok pos toks Comma)
       (fun _ =>
          let pos := pos + 1 in
          if_ok (call NT_assignment_expression toks pos)
            (fun '(child_node, tmp_pos) =>
               loop k (push_child (set_type cur_node (type_exp child_node))
                         child_node) (inc + 1) tmp_pos)
            (fun _ => Ok (keep_single cur_node pre_type inc, pos)))
       (fun _ => Ok (keep_single cur_node pre_type inc, pos))
     end) fuel cur_node 0 pos.

Definition p_constant_expression_body (call : NT -> Parser) (fuel : nat)
    (toks : list TokType) (pos : nat) : Outcome (ParseNode * nat) :=
  let? _ := check_pos pos (length toks) in
  let cur_node := new Ast.ConstantExpression in
  let? '(child_node, pos) := call NT_conditional_expression toks pos in
  adopt cur_node child_node pos.

Definition p_declaration_body (call : NT -> Parser) (fuel : nat)
    (toks : list TokType) (pos : nat) : Outcome (ParseNode * nat) :=
  let? _ := check_pos pos (length toks) in
  let cur_node := new Ast.Declaration in
  if_ok (call NT_declaration_specifiers toks pos)
    (fun '(child_node, pos) =>
       if_ok (check_tok pos toks Semicolon)
         (fun _ => adopt cur_node child_node (pos + 1))
         (fun _ =>
            let cur_node := attach cur_node child_node in
            let? '(child_node, pos) := call NT_init_declarator_list toks pos in
            let cur_node := attach cur_node child_node in
            if_ok (check_tok pos toks Semicolon)
              (fun _ => Ok (cur_node, pos + 1))
              (fun _ => at_index toks pos (fun _ => Err (error_handler ";")))))
  (fun _ =>
  if_ok (call NT_static_assert_declaration toks pos)
    (fun '(child_node, pos) => adopt cur_node child_node pos)
  (fun _ => Err "Can't parse declaration")).

Definition p_declaration_specifiers_body (call : NT -> Parser) (fuel : nat)
    (toks : list TokType) (pos : nat) : Outcome (ParseNode * nat) :=
  let? _ := check_pos pos (length toks) in
  let cur_node := new Ast.DeclarationSpecifiers in
  (* the body shared by the five alternatives *)
  let more (child_node : ParseNode) (pos : nat) :=
    let pre_type := type_exp child_node in
    let cur_node := push_child cur_node child_node in
    if_ok (call NT_declaration_specifiers toks pos)
      (fun '(child_node, pos) =>
         Ok (attach (push_type_child cur_node pre_type) child_node, pos))
      (fun _ => Ok (set_type cur_node pre_type, pos)) in
  if_ok (p_storage_class_specifier toks pos) (fun '(c, pos) => more c pos)
  (fun _ =>
  if_ok (call NT_type_specifier toks pos) (fun '(c, pos) => more c pos)
  (fun _ =>
  if_ok (p_type_qualifier toks pos) (fun '(c, pos) => more c pos)
  (fun _ =>
  if_ok (p_function_specifier toks pos) (fun '(c, pos) => more c pos)
  (fun _ =>
  if_ok (call NT_alignment_specifier toks pos) (fun '(c, pos) => more c pos)
  (fun _ => Err "Can't parse declaration_specifiers"))))).

Definition p_init_declarator_list_body (call : NT -> Parser) (fuel : nat)
    (toks : list TokType) (pos : nat) : Outcome (ParseNode * nat) :=
  let? _ := check_pos pos (length toks) in
  let cur_node := new Ast.InitDeclaratorList in
  let? '(child_node, pos) := call NT_init_declarator toks pos in
  let pre_type := type_exp child_node in
  let cur_node := attach cur_node child_node in
  let? '(cur_node, inc, pos) :=
    sep_items (call NT_init_declarator) fuel toks cur_node 0 pos in
  Ok (keep_single cur_node pre_type inc, pos).

Definition p_init_declarator_body (call : NT -> Parser) (fuel : nat)
    (toks : list TokType) (pos : nat) : Outcome (ParseNode * nat) :=
  let? _ := check_pos pos (length toks) in
  let cur_node := new Ast.InitDeclarator in
  if_ok (call NT_declarator toks pos)
    (fun '(child_node, pos) =>
       let pre_type := type_exp child_node in
       let cur_node := push_child cur_node child_node in
       if_ok (check_tok pos toks Assign)
         (fun _ =>
            let pos := pos + 1 in
            let? '(child_node, pos) := call NT_initializer toks pos in
            if judge_type_same pre_type (type_exp child_node)
            then Ok (push_child (set_type cur_node pre_type) child_node, pos)
            else Err "init_declarator, can not assign")
         (fun _ => Ok (set_type cur_node pre_type, pos)))
    (fun _ => Err "Can't parse init_declarator").

(* no [check_pos] in the source: [match &toks[pos]] comes first *)

Definition p_type_specifier_body (call : NT -> Parser) (fuel : nat)
    (toks : list TokType) (pos : nat) : Outcome (ParseNode * nat) :=
  at_index toks pos (fun t =>
  let spec (b : BaseType) :=
    Ok (set_type (new (Ast.TypeSpecifier (Some t))) (new_val b), pos + 1) in
  match t with
  | VOID => spec Symtable.Void
  | CHAR => spec Symtable.Char
  | SHORT => spec Symtable.Short
  | INT => spec Symtable.Int
  | LONG => spec Symtable.Long
  | FLOAT => spec Symtable.Float
  | DOUBLE => spec Symtable.Double
  | SIGNED => spec Symtable.Signed
  | UNSIGNED => spec Symtable.Unsigned
  | BOOL => spec Symtable.Bool
  | COMPLEX => spec Symtable.Complex
  | IMAGINARY => spec Symtable.Imaginary
  | TypedefName => Err "Typedef is not supported in crust now"
  | _ =>
      let cur_node := new (Ast.TypeSpecifier None) in
      if_ok (call NT_atomic_type_specifier toks pos)
        (fun '(c, pos) => adopt cur_node c pos)
      (fun _ =>
      if_ok (call NT_struct_or_union_specifier toks pos)
        (fun '(c, pos) => adopt cur_node c pos)
      (fun _ =>
      if_ok (call NT_enum_specifier toks pos)
        (fun '(c, pos) => adopt cur_node c pos)
      (fun _ => Err "Error parse type specifier")))
  end).

Definition p_struct_or_union_specifier_body (call : NT -> Parser) (fuel : nat)
    (toks : list TokType) (pos : nat) : Outcome (ParseNode * nat) :=
  let? _ := check_pos pos (length toks) in
  let cur_node := new Ast.StructOrUnionSpecifier in
  let? '(child_node, pos) := p_struct_or_union toks pos in
  let cur_node := attach cur_node child_node in
  if_ok (p_identifier toks pos)
    (fun '(c, pos) =>
       let cur_node := attach cur_node c in
       if_ok (check_tok pos toks LBrace)
         (fun _ =>
            let pos := pos + 1 in
            let? '(child_node, pos) := call NT_struct_declaration_list toks pos in
            let cur_node := attach cur_node child_node in
            let? _ := check_tok pos toks RBrace in
            Ok (cur_node, pos + 1))
         (fun _ => Ok (cur_node, pos)))
    (fun _ =>
       let? _ := check_tok pos toks LBrace in
       let pos := pos + 1 in
       let? '(c, pos) := call NT_struct_declaration_list toks pos in
       let cur_node := attach cur_node c in
       let? _ := check_tok pos toks RParen in
       Ok (cur_node, pos + 1)).

Definition p_struct_declaration_list_body (call : NT -> Parser) (fuel : nat)
    (toks : list TokType) (pos : nat) : Outcome (ParseNode * nat) :=
  let? _ := check_pos pos (length toks) in
  let cur_node := new Ast.StructDeclarationList in
  let? '(child_node, pos) := call NT_struct_declaration toks pos in
  let pre_type := type_exp child_node in
  let cur_node := attach cur_node child_node in
  let? '(cur_node, inc, pos) :=
    many (call NT_struct_declaration) fuel toks cur_node 0 pos in
  Ok (keep_single cur_node pre_type inc, pos).

Definition p_struct_declaration_body (call : NT -> Parser) (fuel : nat)
    (toks : list TokType) (pos : nat) : Outcome (ParseNode * nat) :=
  let? _ := check_pos pos (length toks) in
  let cur_node := new Ast.StructDeclaration in
  if_ok (call NT_specifier_qualifier_list toks pos)
    (fun '(child_node, pos) =>
       let pre_type := type_exp child_node in
       let cur_node := push_child cur_node child_node in
       if_ok (check_tok pos toks Semicolon)
         (fun _ => Ok (set_type cur_node pre_type, pos + 1))
         (fun _ =>
            let? '(child_node, pos) := call NT_struct_declarator_list toks pos in
            let cur_node := attach (push_type_child cur_node pre_type) child_node in
            if_ok (check_tok pos toks Semicolon)
              (fun _ => Ok (cur_node, pos + 1))
              (fun _ => at_index toks pos (fun _ => Err (error_handler ";")))))
  (fun _ =>
  if_ok (call NT_static_assert_declaration toks pos)
    (fun '(child_node, pos) => adopt cur_node child_node pos)
  (fun _ => Err "Error parse struct declaration")).

Definition p_specifier_qualifier_list_body (call : NT -> Parser) (fuel : nat)
    (toks : list TokType) (pos : nat) : Outcome (ParseNode * nat) :=
  let? _ := check_pos pos (length toks) in
  let cur_node := new Ast.SpecifierQualifier in
  let more (child_node : ParseNode) (pos : nat) :=
    let pre_type := type_exp child_node in
    let cur_node := push_child cur_node child_node in
    if_ok (call NT_specifier_qualifier_list toks pos)
      (fun '(child_node, pos) =>
         Ok (attach (push_type_child cur_node pre_type) child_node, pos))
      (fun _ => Ok (set_type cur_node pre_type, pos)) in
  if_ok (call NT_type_specifier toks pos) (fun '(c, pos) => more c pos)
  (fun _ =>
  if_ok (p_type_qualifier toks pos) (fun '(c, pos) => more c pos)
  (fun _ => Err "Error parse specifier_qualifier_list")).

Definition p_struct_declarator_list_body (call : NT -> Parser) (fuel : nat)
    (toks : list TokType) (pos : nat) : Outcome (ParseNode * nat) :=
  let? _ := check_pos pos (length toks) in
  let cur_node := new Ast.StructDeclaratorList in
  let? '(child_node, pos) := call NT_struct_declarator toks pos in
  let pre_type := type_exp child_node in
  let cur_node := attach cur_node child_node in
  let? '(cur_node, inc, pos) :=
    sep_items (call NT_struct_declarator) fuel toks cur_node 0 pos in
  Ok (keep_single cur_node pre_type inc, pos).

Definition p_struct_declarator_body (call : NT -> Parser) (fuel : nat)
    (toks : list TokType) (pos : nat) : Outcome (ParseNode * nat) :=
  let? _ := check_pos pos (length toks) in
  let cur_node := new Ast.StructDeclarator in
  if_ok (check_tok pos toks Colon)
    (fun _ =>
       let pos := pos + 1 in
       let? '(child_node, pos) := call NT_constant_expression toks pos in
       adopt cur_node child_node pos)
    (fun _ =>
       let? '(child_node, pos) := call NT_declarator toks pos in
       let pre_type := type_exp child_node in
       let cur_node := attach cur_node child_node in
       if_ok (check_tok pos toks Colon)
         (fun _ =>
            let? '(child_node, pos) := call NT_constant_expression toks pos in
            Ok (attach cur_node child_node, pos))
         (fun _ => Ok (set_type cur_node pre_type, pos))).

Definition p_enum_specifier_body (call : NT -> Parser) (fuel : nat)
    (toks : list TokType) (pos : nat) : Outcome (ParseNode * nat) :=
  let? _ := check_pos pos (length toks) in
  let? _ := check_tok pos toks ENUM in
  let pos := pos + 1 in
  (* the closing [}] or [, }] after the enumerator list *)
  let close (cur_node : ParseNode) (pos : nat) :=
    if_ok (check_tok pos toks RBrace) (fun _ => Ok (cur_node, pos + 1))
    (fun _ =>
    if_ok (check_tok pos toks Comma)
      (fun _ =>
         let pos := pos + 1 in
         if_ok (check_tok pos toks RBrace) (fun _ => Ok (cur_node, pos + 1))
           (fun _ => at_index toks pos (fun _ => Err (error_handler "}"))))
      (fun _ => at_index toks pos (fun _ => Err (error_handler "}")))) in
  if_ok (check_tok pos toks LBrace)
    (fun _ =>
       let cur_node := new (Ast.EnumSpecifier None) in
       let? '(child_node, pos) := call NT_enumerator_list toks pos in
       close (push_child cur_node child_node) pos)
    (fun _ => at_index toks pos (fun t =>
       match t with
       | IDENTIFIER name =>
           let cur_node := new (Ast.EnumSpecifier (Some name)) in
           let pos := pos + 1 in
           if_ok (check_tok pos toks LBrace)
             (fun _ =>
                let? '(child_node, pos) := call NT_enumerator_list toks pos in
                close (push_child cur_node child_node) pos)
             (fun _ => at_index toks pos (fun _ => Err (error_handler "}")))
       | _ => Err (error_handler "`{` or identifier")
       end)).

Definition p_enumerator_list_body (call : NT -> Parser) (fuel : nat)
    (toks : list TokType) (pos : nat) : Outcome (ParseNode * nat) :=
  let? _ := check_pos pos (length toks) in
  let cur_node := new Ast.EnumeratorList in
  let? '(child_node, pos) := call NT_enumerator toks pos in
  let cur_node := attach cur_node child_node in
  let? '(cur_node, _, pos) :=
    sep_items (call NT_enumerator) fuel toks cur_node 0 pos in
  Ok (cur_node, pos).

Definition p_enumerator_body (call : NT -> Parser) (fuel : nat)
    (toks : list TokType) (pos : nat) : Outcome (ParseNode * nat) :=
  let? _ := check_pos pos (length toks) in
  let cur_node := new Ast.Enumerator in
  let? '(child_node, pos) := p_enumeration_constant toks pos in
  let pre_type := type_exp child_node in
  let cur_node := push_child cur_node child_node in
  if_ok (check_tok pos toks Assign)
    (fun _ =>
       let cur_node := push_type_child cur_node pre_type in
       let pos := pos + 1 in
       let? '(child_node, pos) := call NT_constant_expression toks pos in
       if is_enumerator_type (type_exp child_node)
       then Ok (attach cur_node child_node, pos)
       else Err "enumeration_constant can only assign to int")
    (fun _ => Ok (set_type cur_node pre_type, pos)).

Definition p_atomic_type_specifier_body (call : NT -> Parser) (fuel : nat)
    (toks : list TokType) (pos : nat) : Outcome (ParseNode * nat) :=
  let? _ := check_pos pos (length toks) in
  let cur_node := new Ast.AtomicTypeSpecifier in
  let? _ := check_tok pos toks ATOMIC in
  let pos := pos + 1 in
  let cur_node := set_type cur_node (new_val Symtable.Atomic) in
  let? _ := check_tok pos toks LParen in
  let pos := pos + 1 in
  let? '(child_node, pos) := call NT_type_name toks pos in
  let cur_node := attach cur_node child_node in
  let? _ := check_tok pos toks RParen in
  Ok (cur_node, pos + 1).

Definition p_alignment_specifier_body (call : NT -> Parser) (fuel : nat)
    (toks : list TokType) (pos : nat) : Outcome (ParseNode * nat) :=
  let? _ := check_pos pos (length toks) in
  let? _ := check_tok pos toks ALIGNAS in
  let pos := pos + 1 in
  let? _ := check_tok pos toks LParen in
  let pos := pos + 1 in
  let cur_node := new Ast.AlignmentSpecifier in
  let rest (cur_node : ParseNode) (pos : nat) :=
    let? _ := check_tok pos toks RParen in
    Ok (set_type cur_node none_expression, pos + 1) in
  if_ok (call NT_type_name toks pos)
    (fun '(child_node, tmp_pos) => rest (push_child cur_node child_node) tmp_pos)
  (fun _ =>
  if_ok (call NT_constant_expression toks pos)
    (fun '(child_node, tmp_pos) => rest (push_child cur_node child_node) tmp_pos)
  (fun _ => Err "Error parse alignment_specifier")).

Definition p_declarator_body (call : NT -> Parser) (fuel : nat)
    (toks : list TokType) (pos : nat) : Outcome (ParseNode * nat) :=
  let? _ := check_pos pos (length toks) in
  let cur_node := new Ast.Declarator in
  if_ok (call NT_direct_declarator toks pos)
    (fun '(child_node, pos) => adopt cur_node child_node pos)
  (fun _ =>
  if_ok (call NT_pointer toks pos)
    (fun '(child_node, pos) =>
       let cur_node := attach cur_node child_node in
       let? '(child_node, pos) := call NT_direct_declarator toks pos in
       Ok (attach cur_node child_node, pos))
  (fun _ => Err "Error parse declarator")).

Definition p_direct_declarator_body (call : NT -> Parser) (fuel : nat)
    (toks : list TokType) (pos : nat) : Outcome (ParseNode * nat) :=
  let? _ := check_pos pos (length toks) in
  let cur_node := new Ast.DirectDeclarator in
  let post (cur_node : ParseNode) (pre_type : TypeExpression) (pos : nat) :=
    if_ok (call NT_direct_declarator_post_list toks pos)
      (fun '(child_node, pos) =>
         Ok (attach (push_type_child cur_node pre_type) child_node, pos))
      (fun _ => Ok (set_type cur_node pre_type, pos)) in
  if_ok (p_identifier toks pos)
    (fun '(child_node, tmp_pos) =>
       post (push_child cur_node child_node) (type_exp child_node) tmp_pos)
  (fun _ =>
  if_ok (check_tok pos toks LParen)
    (fun _ =>
       let tmp_pos := pos + 1 in
       let? '(child_node, tmp_pos) := call NT_declarator toks tmp_pos in
       post (push_child cur_node child_node) (type_exp child_node) tmp_pos)
  (fun _ => Err "Error parse direct_declarator")).

Definition p_direct_declarator_post_list_body (call : NT -> Parser) (fuel : nat)
    (toks : list TokType) (pos : nat) : Outcome (ParseNode * nat) :=
  let? _ := check_pos pos (length toks) in
  let cur_node := new Ast.DirectDeclaratorPostList in
  let? '(child_node, pos) := call NT_direct_declarator_post toks pos in
  let pre_type := type_exp child_node in
  let cur_node := attach cur_node child_node in
  let? '(cur_node, inc, pos) :=
    many (call NT_direct_declarator_post) fuel toks cur_node 0 pos in
  Ok (keep_single cur_node pre_type inc, pos).

Definition p_direct_declarator_post_body (call : NT -> Parser) (fuel : nat)
    (toks : list TokType) (pos : nat) : Outcome (ParseNode * nat) :=
  let? _ := check_pos pos (length toks) in
  at_index toks pos (fun t =>
  match t with
  | LParen =>
      let cur_node := new (Ast.DirectDeclaratorPost t) in
      let pos := pos + 1 in
      if_ok (check_tok pos toks RParen) (fun _ => Ok (cur_node, pos + 1))
      (fun _ =>
      if_ok (call NT_parameter_type_list toks pos)
        (fun '(child_node, pos) =>
           let cur_node := push_child (set_type cur_node (type_exp child_node))
                             child_node in
           let? _ := check_tok pos toks RParen in
           Ok (cur_node, pos + 1))
      (fun _ =>
         let? '(child_node, pos) := p_identifier_list toks pos in
         let cur_node := push_child (set_type cur_node (type_exp child_node))
                           child_node in
         let? _ := check_tok pos toks RParen in
         Ok (cur_node, pos + 1)))
  | LBracket =>
      let cur_node := new (Ast.DirectDeclaratorPost t) in
      let pos := pos + 1 in
      if_ok (check_tok pos toks RBracket) (fun _ => Ok (cur_node, pos + 1))
      (fun _ =>
         let? '(child_node, pos) := call NT_assignment_expression toks pos in
         let cur_node := push_child (set_type cur_node (type_exp child_node))
                           child_node in
         let? _ := check_tok pos toks RBracket in
         Ok (cur_node, pos + 1))
  | _ => Err (error_handler "[ or (")
  end).

Definition p_pointer_body (call : NT -> Parser) (fuel : nat)
    (toks : list TokType) (pos : nat) : Outcome (ParseNode * nat) :=
  let? _ := check_pos pos (length toks) in
  let cur_node := new Ast.Pointer in
  let? _ := check_tok pos toks Multi in
  let cur_node := set_type cur_node (new_val Symtable.Pointer) in
  let pos := pos + 1 in
  let tail (cur_node : ParseNode) (pos : nat) :=
    if_ok (call NT_pointer toks pos)
      (fun '(child_node, pos) => Ok (attach cur_node child_node, pos))
      (fun _ => Ok (cur_node, pos)) in
  if_ok (p_type_qualifier_list toks pos)
    (fun '(child_node, pos) => tail (attach cur_node child_node) pos)
    (fun _ => tail cur_node pos).

Definition p_parameter_type_list_body (call : NT -> Parser) (fuel : nat)
    (toks : list TokType) (pos : nat) : Outcome (ParseNode * nat) :=
  let? _ := check_pos pos (length toks) in
  let cur_node := new (Ast.ParameterTypeList false) in
  let? '(child_node, pos) := call NT_parameter_list toks pos in
  let cur_node := push_child (set_type cur_node (type_exp child_node)) child_node in
  if_ok (check_tok pos toks Comma)
    (fun _ =>
       let pos := pos + 1 in
       let? _ := check_tok pos toks ELLIPSIS in
       let cur_node := set_entry cur_node (Ast.ParameterTypeList true) in
       let cur_node := push_type_val cur_node Symtable.VaList in
       Ok (cur_node, pos))
    (fun _ => Ok (cur_node, pos)).

Definition p_parameter_list_body (call : NT -> Parser) (fuel : nat)
    (toks : list TokType) (pos : nat) : Outcome (ParseNode * nat) :=
  let? _ := check_pos pos (length toks) in
  let cur_node := new Ast.ParameterList in
  let? '(child_node, pos) := call NT_parameter_declaration toks pos in
  let cur_node := attach cur_node child_node in
  let? '(cur_node, _, pos) :=
    sep_items (call NT_parameter_declaration) fuel toks cur_node 0 pos in
  Ok (cur_node, pos).

Definition p_parameter_declaration_body (call : NT -> Parser) (fuel : nat)
    (toks : list TokType) (pos : nat) : Outcome (ParseNode * nat) :=
  let? _ := check_pos pos (length toks) in
  let cur_node := new Ast.ParameterDeclaration in
  let? '(c, pos) := call NT_declaration_specifiers toks pos in
  let declaration_specifiers_type := type_exp c in
  let cur_node := push_child cur_node c in
  if_ok (call NT_declarator toks pos)
    (fun '(c, pos) =>
       Ok (attach (push_type_child cur_node declaration_specifiers_type) c, pos))
  (fun _ =>
  if_ok (call NT_abstract_declarator toks pos)
    (fun '(c, pos) =>
       Ok (attach (push_type_child cur_node declaration_specifiers_type) c, pos))
  (fun _ => Ok (set_type cur_node declaration_specifiers_type, pos))).

Definition p_type_name_body (call : NT -> Parser) (fuel : nat)
    (toks : list TokType) (pos : nat) : Outcome (ParseNode * nat) :=
  let? _ := check_pos pos (length toks) in
  let cur_node := new Ast.TypeName in
  let? '(child_node, pos) := call NT_specifier_qualifier_list toks pos in
  let specifier_qualifier_list_type := type_exp child_node in
  let cur_node := push_child cur_node child_node in
  if_ok (call NT_abstract_declarator toks pos)
    (fun '(child_node, pos) =>
       Ok (attach (push_type_child cur_node specifier_qualifier_list_type)
             child_node, pos))
    (fun _ => Ok (set_type cur_node specifier_qualifier_list_type, pos)).

Definition p_abstract_declarator_body (call : NT -> Parser) (fuel : nat)
    (toks : list TokType) (pos : nat) : Outcome (ParseNode * nat) :=
  let? _ := check_pos pos (length toks) in
  let cur_node := new Ast.AbstractDeclarator in
  if_ok (call NT_pointer toks pos)
    (fun '(child_node, pos) =>
       let cur_node := set_type (push_child cur_node child_node)
                         (new_val Symtable.Pointer) in
       if_ok (call NT_direct_abstract_declarator toks pos)
         (fun '(child_node, pos) => Ok (attach cur_node child_node, pos))
         (fun _ => Ok (cur_node, pos)))
  (fun _ =>
  if_ok (call NT_direct_abstract_declarator toks pos)
    (fun '(child_node, pos) => adopt cur_node child_node pos)
  (fun _ => Err "Error parse abstract_declarator")).

Definition p_direct_abstract_declarator_body (call : NT -> Parser) (fuel : nat)
    (toks : list TokType) (pos : nat) : Outcome (ParseNode * nat) :=
  let? _ := check_pos pos (length toks) in
  let cur_node := new Ast.DirectAbstractDeclarator in
  let? '(child_node, pos) := call NT_direct_abstract_declarator_block toks pos in
  let pre_type := type_exp child_node in
  let cur_node := attach cur_node child_node in
  let? '(cur_node, inc, pos) :=
    many (call NT_direct_abstract_declarator_block) fuel toks cur_node 0 pos in
  Ok (keep_single cur_node pre_type inc, pos).

Definition p_direct_abstract_declarator_block_body (call : NT -> Parser) (fuel : nat)
    (toks : list TokType) (pos : nat) : Outcome (ParseNode * nat) :=
  let? _ := check_pos pos (length toks) in
  at_index toks pos (fun t =>
  match t with
  | LParen =>
      let cur_node := new (Ast.DirectAbstractDeclaratorBlock t) in
      let pos := pos + 1 in
      if_ok (check_tok pos toks RParen) (fun _ => Ok (cur_node, pos + 1))
      (fun _ =>
      if_ok (call NT_abstract_declarator toks pos)
        (fun '(child_node, pos) =>
           let cur_node := push_child (set_type cur_node (type_exp child_node))
                             child_node in
           let? _ := check_tok pos toks RParen in
           Ok (cur_node, pos + 1))
      (fun _ =>
         let? '(child_node, pos) := call NT_parameter_type_list toks pos in
         let cur_node := push_child (set_type cur_node (type_exp child_node))
                           child_node in
         let? _ := check_tok pos toks RParen in
         Ok (cur_node, pos + 1)))
  | LBracket =>
      let cur_node := new (Ast.DirectAbstractDeclaratorBlock t) in
      let pos := pos + 1 in
      if_ok (check_tok pos toks RBracket) (fun _ => Ok (cur_node, pos + 1))
      (fun _ =>
         let? '(child_node, pos) := call NT_assignment_expression toks pos in
         let cur_node := push_child (set_type cur_node (type_exp child_node))
                           child_node in
         let? _ := check_tok pos toks RBracket in
         Ok (cur_node, pos + 1))
  | _ => Err (error_handler "( or [")
  end).

Definition p_initializer_body (call : NT -> Parser) (fuel : nat)
    (toks : list TokType) (pos : nat) : Outcome (ParseNode * nat) :=
  let? _ := check_pos pos (length toks) in
  let cur_node := new Ast.Initializer in
  if_ok (call NT_assignment_expression toks pos)
    (fun '(child_node, pos) => adopt cur_node child_node pos)
    (fun _ =>
       let? _ := check_tok pos toks LBrace in
       let pos := pos + 1 in
       let? '(child_node, pos) := call NT_initializer_list toks pos in
       let cur_node := push_child (set_type cur_node (type_exp child_node))
                         child_node in
       if_ok (check_tok pos toks Comma)
         (fun _ =>
            let pos := pos + 1 in
            let? _ := check_tok pos toks RBrace in
            Ok (cur_node, pos))
         (fun _ =>
            let? _ := check_tok pos toks RBrace in
            Ok (cur_node, pos + 1))).

Definition p_initializer_list_body (call : NT -> Parser) (fuel : nat)
    (toks : list TokType) (pos : nat) : Outcome (ParseNode * nat) :=
  let? _ := check_pos pos (length toks) in
  let cur_node := new Ast.InitializerList in
  (* [initializer] or [designation initializer]; [Err] when neither parses *)
  let item (cur_node : ParseNode) (pos : nat)
      : Outcome (ParseNode * TypeExpression * nat) :=
    if_ok (call NT_initializer toks pos)
      (fun '(child_node, tmp_pos) =>
         Ok (push_child cur_node child_node, type_exp child_node, tmp_pos))
    (fun _ =>
    if_ok (call NT_designation toks pos)
      (fun '(child_node, tmp_pos) =>
         let cur_node := push_child cur_node child_node in
         let? '(child_node, tmp_pos) := call NT_initializer toks tmp_pos in
         Ok (push_child cur_node child_node, type_exp child_node, tmp_pos))
    (fun _ => Err "Error parse initializer_list")) in
  let? '(cur_node, pre_type, pos) := item cur_node pos in
  let cur_node := push_type_child cur_node pre_type in
  (fix loop (k : nat) (cur_node : ParseNode) (pre_type : TypeExpression)
       (inc pos : nat) :=
     match k with O => OutOfFuel | S k =>
     if_ok (check_tok pos toks Comma)
       (fun _ =>
          let pos := pos + 1 in
          let inc := inc + 1 in
          if_ok (call NT_initializer toks pos)
            (fun '(child_node, tmp_pos) =>
               loop k (push_type_child (push_child cur_node child_node)
                         (type_exp child_node)) (type_exp child_node) inc tmp_pos)
          (fun _ =>
          if_ok (call NT_designation toks pos)
            (fun '(child_node, tmp_pos) =>
               let cur_node := push_child cur_node child_node in
               let? '(child_node, tmp_pos) := call NT_initializer toks tmp_pos in
               loop k (push_type_child (push_child cur_node child_node)
                         (type_exp child_node)) (type_exp child_node) inc tmp_pos)
          (fun _ => Ok (keep_single cur_node pre_type inc, pos - 1))))
       (fun _ => Ok (keep_single cur_node pre_type inc, pos))
     end) fuel cur_node pre_type 0 pos.

Definition p_designation_body (call : NT -> Parser) (fuel : nat)
    (toks : list TokType) (pos : nat) : Outcome (ParseNode * nat) :=
  let? _ := check_pos pos (length toks) in
  let cur_node := new Ast.Designation in
  let? '(child_node, pos) := call NT_designator_list toks pos in
  let cur_node := push_child (set_type cur_node (type_exp child_node)) child_node in
  let? _ := check_tok pos toks Assign in
  Ok (cur_node, pos + 1).

Definition p_designator_list_body (call : NT -> Parser) (fuel : nat)
    (toks : list TokType) (pos : nat) : Outcome (ParseNode * nat) :=
  let? _ := check_pos pos (length toks) in
  let cur_node := new Ast.DesignatorList in
  let? '(child_node, pos) := call NT_designator toks pos in
  let pre_type := type_exp child_node in
  let cur_node := attach cur_node child_node in
  let? '(cur_node, inc, pos) :=
    many (call NT_designator) fuel toks cur_node 0 pos in
  Ok (keep_single cur_node pre_type inc, pos).

Definition p_designator_body (call : NT -> Parser) (fuel : nat)
    (toks : list TokType) (pos : nat) : Outcome (ParseNode * nat) :=
  let? _ := check_pos pos (length toks) in
  let cur_node := new Ast.Designator in
  if_ok (check_tok pos toks LBracket)
    (fun _ =>
       let pos := pos + 1 in
       let? '(child_node, pos) := call NT_constant_expression toks pos in
       let cur_node := push_child (set_type cur_node (type_exp child_node))
                         child_node in
       let? _ := check_tok pos toks RBracket in
       Ok (cur_node, pos + 1))
    (fun _ =>
       let? _ := check_tok pos toks Dot in
       let pos := pos + 1 in
       let? '(child_node, pos) := p_identifier toks pos in
       adopt cur_node child_node pos).

Definition p_static_assert_declaration_body (call : NT -> Parser) (fuel : nat)
    (toks : list TokType) (pos : nat) : Outcome (ParseNode * nat) :=
  let? _ := check_pos pos (length toks) in
  let? _ := check_tok pos toks StaticAssert in
  let pos := pos + 1 in
  let? _ := check_tok pos toks LParen in
  let pos := pos + 1 in
  let cur_node := new Ast.StaticAssertDeclaration in
  let? '(child_node, pos) := call NT_constant_expression toks pos in
  let cur_node := push_child cur_node child_node in
  let? _ := check_tok pos toks Comma in
  let pos := pos + 1 in
  let? '(child_node, pos) := p_string toks pos in
  let cur_node := push_child cur_node child_node in
  let? _ := check_tok pos toks RParen in
  let pos := pos + 1 in
  let? _ := check_tok pos toks Semicolon in
  let pos := pos + 1 in
  Ok (set_type cur_node none_expression, pos).

Definition p_statement_body (call : NT -> Parser) (fuel : nat)
    (toks : list TokType) (pos : nat) : Outcome (ParseNode * nat) :=
  let? _ := check_pos pos (length toks) in
  let cur_node := new Ast.Statement in
  if_ok (call NT_labeled_statement toks pos) (fun '(c, pos) => adopt cur_node c pos)
  (fun _ =>
  if_ok (call NT_compound_statement toks pos) (fun '(c, pos) => adopt cur_node c pos)
  (fun _ =>
  if_ok (call NT_expression_statement toks pos) (fun '(c, pos) => adopt cur_node c pos)
  (fun _ =>
  if_ok (call NT_selection_statement toks pos) (fun '(c, pos) => adopt cur_node c pos)
  (fun _ =>
  if_ok (call NT_iteration_statement toks pos) (fun '(c, pos) => adopt cur_node c pos)
  (fun _ =>
  if_ok (call NT_jump_statement toks pos) (fun '(c, pos) => adopt cur_node c pos)
  (fun _ => Err "Error parse statement")))))).

Definition p_labeled_statement_body (call : NT -> Parser) (fuel : nat)
    (toks : list TokType) (pos : nat) : Outcome (ParseNode * nat) :=
  let? _ := check_pos pos (length toks) in
  let cur_node := new (Ast.LabeledStatement "") in
  at_index toks pos (fun t =>
  match t with
  | IDENTIFIER s =>
      let cur_node := set_entry cur_node (Ast.LabeledStatement s) in
      let pos := pos + 1 in
      let? _ := check_tok pos toks Colon in
      let pos := pos + 1 in
      let? '(child_node, pos) := call NT_statement toks pos in
      Ok (push_child (set_type cur_node none_expression) child_node, pos)
  | CASE =>
      let cur_node := set_entry cur_node (Ast.LabeledStatement "case") in
      let pos := pos + 1 in
      let? '(child_node, pos) := call NT_constant_expression toks pos in
      let cur_node := push_child cur_node child_node in
      let? _ := check_tok pos toks Colon in
      let pos := pos + 1 in
      let? '(child_node, pos) := call NT_statement toks pos in
      Ok (set_type (push_child cur_node child_node) none_expression, pos)
  | DEFAULT =>
      let cur_node := set_entry cur_node (Ast.LabeledStatement "default") in
      let pos := pos + 1 in
      let? _ := check_tok pos toks Colon in
      let pos := pos + 1 in
      let? '(child_node, pos) := call NT_statement toks pos in
      Ok (set_type (push_child cur_node child_node) none_expression, pos)
  | _ => Err (error_handler "label")
  end).

Definition p_compound_statement_body (call : NT -> Parser) (fuel : nat)
    (toks : list TokType) (pos : nat) : Outcome (ParseNode * nat) :=
  let? _ := check_pos pos (length toks) in
  let cur_node := new Ast.CompoundStatement in
  let? _ := check_tok pos toks LBrace in
  let pos := pos + 1 in
  if_ok (call NT_block_item_list toks pos)
    (fun '(child_node, pos) =>
       let cur_node := push_child (set_type cur_node (type_exp child_node))
                         child_node in
       let? _ := check_tok pos toks RBrace in
       Ok (cur_node, pos + 1))
    (fun _ =>
       let? _ := check_tok pos toks RBrace in
       Ok (set_type cur_node none_expression, pos + 1)).

Definition p_block_item_list_body (call : NT -> Parser) (fuel : nat)
    (toks : list TokType) (pos : nat) : Outcome (ParseNode * nat) :=
  let? _ := check_pos pos (length toks) in
  let cur_node := new Ast.BlockItemList in
  let? '(child_node, pos) := call NT_block_item toks pos in
  let pre_type := type_exp child_node in
  let cur_node := attach cur_node child_node in
  let? '(cur_node, inc, pos) :=
    many (call NT_block_item) fuel toks cur_node 0 pos in
  Ok (keep_single cur_node pre_type inc, pos).

Definition p_block_item_body (call : NT -> Parser) (fuel : nat)
    (toks : list TokType) (pos : nat) : Outcome (ParseNode * nat) :=
  let? _ := check_pos pos (length toks) in
  let cur_node := new Ast.BlockItem in
  if_ok (call NT_declaration toks pos) (fun '(c, pos) => adopt cur_node c pos)
  (fun _ =>
  if_ok (call NT_statement toks pos) (fun '(c, pos) => adopt cur_node c pos)
  (fun _ => Err "Error parse block_item")).

Definition p_expression_statement_body (call : NT -> Parser) (fuel : nat)
    (toks : list TokType) (pos : nat) : Outcome (ParseNode * nat) :=
  let? _ := check_pos pos (length toks) in
  let cur_node := new Ast.ExpressionStatement in
  if_ok (check_tok pos toks Semicolon)
    (fun _ => Ok (set_type cur_node none_expression, pos + 1))
    (fun _ =>
       let? '(child_node, pos) := call NT_expression toks pos in
       let cur_node := push_child (set_type cur_node (type_exp child_node))
                         child_node in
       let? _ := check_tok pos toks Semicolon in
       Ok (cur_node, pos + 1)).

Definition p_selection_statement_body (call : NT -> Parser) (fuel : nat)
    (toks : list TokType) (pos : nat) : Outcome (ParseNode * nat) :=
  let? _ := check_pos pos (length toks) in
  at_index toks pos (fun t =>
  match t with
  | IF =>
      let cur_node := new (Ast.SelectionStatement t) in
      let pos := pos + 1 in
      let? _ := check_tok pos toks LParen in
      let pos := pos + 1 in
      let? '(child_node, pos) := call NT_expression toks pos in
      let cur_node := push_child cur_node child_node in
      let? _ := check_tok pos toks RParen in
      let pos := pos + 1 in
      let? '(child_node, pos) := call NT_statement toks pos in
      let cur_node := push_child cur_node child_node in
      if_ok (check_tok pos toks ELSE)
        (fun _ =>
           let pos := pos + 1 in
           let? '(child_node, pos) := call NT_statement toks pos in
           Ok (set_type (push_child cur_node child_node) none_expression, pos))
        (fun _ => Ok (set_type cur_node none_expression, pos))
  | SWITCH =>
      let cur_node := new (Ast.SelectionStatement t) in
      let pos := pos + 1 in
      let? _ := check_tok pos toks LParen in
      let pos := pos + 1 in
      let? '(child_node, pos) := call NT_expression toks pos in
      let cur_node := push_child cur_node child_node in
      let? _ := check_tok pos toks RParen in
      let pos := pos + 1 in
      let? '(child_node, pos) := call NT_statement toks pos in
      Ok (set_type (push_child cur_node child_node) none_expression, pos)
  | _ => Err (error_handler "[if, switch]")
  end).

Definition p_iteration_statement_body (call : NT -> Parser) (fuel : nat)
    (toks : list TokType) (pos : nat) : Outcome (ParseNode * nat) :=
  let? _ := check_pos pos (length toks) in
  at_index toks pos (fun t =>
  match t with
  | WHILE =>
      let cur_node := new (Ast.IterationStatement t) in
      let pos := pos + 1 in
      let? _ := check_tok pos toks LParen in
      let pos := pos + 1 in
      let? '(child_node, pos) := call NT_expression toks pos in
      let cur_node := push_child cur_node child_node in
      let? _ := check_tok pos toks RParen in
      let pos := pos + 1 in
      let? '(child_node, pos) := call NT_statement toks pos in
      Ok (set_type (push_child cur_node child_node) none_expression, pos)
  | DO =>
      let cur_node := new (Ast.IterationStatement t) in
      let pos := pos + 1 in
      let? '(child_node, pos) := call NT_statement toks pos in
      let cur_node := push_child cur_node child_node in
      let? _ := check_tok pos toks WHILE in
      let pos := pos + 1 in
      let? _ := check_tok pos toks LParen in
      let pos := pos + 1 in
      let? '(child_node, pos) := call NT_expression toks pos in
      let cur_node := push_child cur_node child_node in
      let? _ := check_tok pos toks RParen in
      let pos := pos + 1 in
      let? _ := check_tok pos toks Semicolon in
      let pos := pos + 1 in
      Ok (set_type cur_node none_expression, pos)
  | FOR =>
      let cur_node := new (Ast.IterationStatement t) in
      let pos := pos + 1 in
      let? _ := check_tok pos toks LParen in
      let pos := pos + 1 in
      (* after the first clause: [expression_statement [expression] ')' statement] *)
      let rest (cur_node : ParseNode) (pos : nat) :=
        let? '(child_node, pos) := call NT_expression_statement toks pos in
        let cur_node := push_child cur_node child_node in
        if_ok (check_tok pos toks RParen)
          (fun _ =>
             let pos := pos + 1 in
             let? '(child_node, pos) := call NT_statement toks pos in
             Ok (set_type (push_child cur_node child_node) none_expression, pos))
          (fun _ =>
             let? '(child_node, pos) := call NT_expression toks pos in
             let cur_node := push_child cur_node child_node in
             let? _ := check_tok pos toks RParen in
             let pos := pos + 1 in
             let? '(child_node, pos) := call NT_statement toks pos in
             Ok (set_type (push_child cur_node child_node) none_expression, pos)) in
      if_ok (call NT_expression_statement toks pos)
        (fun '(child_node, pos) => rest (push_child cur_node child_node) pos)
      (fun _ =>
      if_ok (call NT_declaration toks pos)
        (fun '(child_node, pos) => rest (push_child cur_node child_node) pos)
      (fun _ => Err "Error parse For"))
  | _ => Err (error_handler "[while, do, for]")
  end).

Definition p_jump_statement_body (call : NT -> Parser) (fuel : nat)
    (toks : list TokType) (pos : nat) : Outcome (ParseNode * nat) :=
  let? _ := check_pos pos (length toks) in
  at_index toks pos (fun t =>
  match t with
  | GOTO =>
      let pos := pos + 1 in
      let? _ := check_pos pos (length toks) in
      at_index toks pos (fun t' =>
      match t' with
      | IDENTIFIER var =>
          let cur_node := new (Ast.JumpStatement "goto" (Some var)) in
          let pos := pos + 1 in
          let? _ := check_tok pos toks Semicolon in
          Ok (set_type cur_node none_expression, pos + 1)
      | _ => Err (error_handler "identifier for goto ")
      end)
  | CONTINUE =>
      let cur_node := new (Ast.JumpStatement "continue" None) in
      let pos := pos + 1 in
      let? _ := check_tok pos toks Semicolon in
      Ok (set_type cur_node none_expression, pos + 1)
  | BREAK =>
      let cur_node := new (Ast.JumpStatement "break" None) in
      let pos := pos + 1 in
      let? _ := check_tok pos toks Semicolon in
      Ok (set_type cur_node none_expression, pos + 1)
  | RETURN =>
      let pos := pos + 1 in
      if_ok (check_tok pos toks Semicolon)
        (fun _ =>
           let cur_node := new (Ast.JumpStatement "return" None) in
           Ok (set_type cur_node none_expression, pos + 1))
        (fun _ =>
           let cur_node := new (Ast.JumpStatement "return" None) in
           let? '(child_node, pos) := call NT_expression toks pos in
           let cur_node := push_child (set_type cur_node (type_exp child_node))
                             child_node in
           Ok (cur_node, pos + 1))
  | _ => Err (error_handler "[goto, continue, break, return]")
  end).

Definition p_external_declaration_body (call : NT -> Parser) (fuel : nat)
    (toks : list TokType) (pos : nat) : Outcome (ParseNode * nat) :=
  let? _ := check_pos pos (length toks) in
  let cur_node := new Ast.ExternalDeclaration in
  if_ok (call NT_function_definition toks pos)
    (fun '(child_node, pos) => adopt cur_node child_node pos)
    (fun _ =>
       let? '(child_node, pos) := call NT_declaration toks pos in
       adopt cur_node child_node pos).

Definition p_function_definition_body (call : NT -> Parser) (fuel : nat)
    (toks : list TokType) (pos : nat) : Outcome (ParseNode * nat) :=
  let? _ := check_pos pos (length toks) in
  let cur_node := set_type (new Ast.FunctionDefinition) (new_val Symtable.Function) in
  let? '(child_node, pos) := call NT_declaration_specifiers toks pos in
  let cur_node := attach cur_node child_node in
  let? '(child_node, pos) := call NT_declarator toks pos in
  let cur_node := attach cur_node child_node in
  if_ok (call NT_declaration_list toks pos)
    (fun '(child_node, pos) =>
       let cur_node := attach cur_node child_node in
       let? '(child_node, pos) := call NT_compound_statement toks pos in
       Ok (attach cur_node child_node, pos))
    (fun _ =>
       let? '(child_node, pos) := call NT_compound_statement toks pos in
       Ok (attach cur_node child_node, pos)).

Definition p_declaration_list_body (call : NT -> Parser) (fuel : nat)
    (toks : list TokType) (pos : nat) : Outcome (ParseNode * nat) :=
  let? _ := check_pos pos (length toks) in
  let cur_node := new Ast.DeclarationList in
  let? '(child_node, pos) := call NT_declaration toks pos in
  let pre_type := type_exp child_node in
  let cur_node := attach cur_node child_node in
  let? '(cur_node, inc, pos) :=
    many (call NT_declaration) fuel toks cur_node 0 pos in
  Ok (keep_single cur_node pre_type inc, pos).

Definition p_translation_unit_body (call : NT -> Parser) (fuel : nat)
    (toks : list TokType) (pos : nat) : Outcome (ParseNode * nat) :=
  let? _ := check_pos pos (length toks) in
  let cur_node := new Ast.TranslationUnit in
  translation_unit_loop (call NT_external_declaration) fuel toks cur_node pos.

Definition body_of (nt : NT) : (NT -> Parser) -> nat -> Parser :=
  match nt with
  | NT_primary_expression => p_primary_expression_body
  | NT_generic_selection => p_generic_selection_body
  | NT_generic_assoc_list => p_generic_assoc_list_body
  | NT_generic_association => p_generic_association_body
  | NT_postfix_expression => p_postfix_expression_body
  | NT_postfix_expression_post => p_postfix_expression_post_body
  | NT_argument_expression_list => p_argument_expression_list_body
  | NT_unary_expression => p_unary_expression_body
  | NT_cast_expression => p_cast_expression_body
  | NT_multiplicative_expression => p_multiplicative_expression_body
  | NT_additive_expression => p_additive_expression_body
  | NT_shift_expression => p_shift_expression_body
  | NT_relational_expression => p_relational_expression_body
  | NT_equality_expression => p_equality_expression_body
  | NT_and_expression => p_and_expression_body
  | NT_exclusive_or_expression => p_exclusive_or_expression_body
  | NT_inclusive_or_expression => p_inclusive_or_expression_body
  | NT_logical_and_expression => p_logical_and_expression_body
  | NT_logical_or_expression => p_logical_or_expression_body
  | NT_conditional_expression => p_conditional_expression_body
  | NT_assignment_expression => p_assignment_expression_body
  | NT_expression => p_expression_body
  | NT_constant_expression => p_constant_expression_body
  | NT_declaration => p_declaration_body
  | NT_declaration_specifiers => p_declaration_specifiers_body
  | NT_init_declarator_list => p_init_declarator_list_body
  | NT_init_declarator => p_init_declarator_body
  | NT_type_specifier => p_type_specifier_body
  | NT_struct_or_union_specifier => p_struct_or_union_specifier_body
  | NT_struct_declaration_list => p_struct_declaration_list_body
  | NT_struct_declaration => p_struct_declaration_body
  | NT_specifier_qualifier_list => p_specifier_qualifier_list_body
  | NT_struct_declarator_list => p_struct_declarator_list_body
  | NT_struct_declarator => p_struct_declarator_body
  | NT_enum_specifier => p_enum_specifier_body
  | NT_enumerator_list => p_enumerator_list_body
  | NT_enumerator => p_enumerator_body
  | NT_atomic_type_specifier => p_atomic_type_specifier_body
  | NT_alignment_specifier => p_alignment_specifier_body
  | NT_declarator => p_declarator_body
  | NT_direct_declarator => p_direct_declarator_body
  | NT_direct_declarator_post_list => p_direct_declarator_post_list_body
  | NT_direct_declarator_post => p_direct_declarator_post_body
  | NT_pointer => p_pointer_body
  | NT_parameter_type_list => p_parameter_type_list_body
  | NT_parameter_list => p_parameter_list_body
  | NT_parameter_declaration => p_parameter_declaration_body
  | NT_type_name => p_type_name_body
  | NT_abstract_declarator => p_abstract_declarator_body
  | NT_direct_abstract_declarator => p_direct_abstract_declarator_body
  | NT_direct_abstract_declarator_block => p_direct_abstract_declarator_block_body
  | NT_initializer => p_initializer_body
  | NT_initializer_list => p_initializer_list_body
  | NT_designation => p_designation_body
  | NT_designator_list => p_designator_list_body
  | NT_designator => p_designator_body
  | NT_static_assert_declaration => p_static_assert_declaration_body
  | NT_statement => p_statement_body
  | NT_labeled_statement => p_labeled_statement_body
  | NT_compound_statement => p_compound_statement_body
  | NT_block_item_list => p_block_item_list_body
  | NT_block_item => p_block_item_body
  | NT_expression_statement => p_expression_statement_body
  | NT_selection_statement => p_selection_statement_body
  | NT_iteration_statement => p_iteration_statement_body
  | NT_jump_statement => p_jump_statement_body
  | NT_external_declaration => p_external_declaration_body
  | NT_function_definition => p_function_definition_body
  | NT_declaration_list => p_declaration_list_body
  | NT_translation_unit => p_translation_unit_body
  end.

(** The knot: [run (S fuel) nt] runs the body of [nt] with [run fuel] for
    every call it makes; [run 0 nt] is [OutOfFuel]. *)
Fixpoint run (fuel : nat) (nt : NT) (toks : list TokType) (pos : nat)
    : Outcome (ParseNode * nat) :=
  match fuel with
  | O => OutOfFuel
  | S fuel => body_of nt (run fuel) fuel toks pos
  end.

Definition p_primary_expression (fuel : nat) : Parser := run fuel NT_primary_expression.
Definition p_generic_selection (fuel : nat) : Parser := run fuel NT_generic_selection.
Definition p_generic_assoc_list (fuel : nat) : Parser := run fuel NT_generic_assoc_list.
Definition p_generic_association (fuel : nat) : Parser := run fuel NT_generic_association.
Definition p_postfix_expression (fuel : nat) : Parser := run fuel NT_postfix_expression.
Definition p_postfix_expression_post (fuel : nat) : Parser := run fuel NT_postfix_expression_post.
Definition p_argument_expression_list (fuel : nat) : Parser := run fuel NT_argument_expression_list.
Definition p_unary_expression (fuel : nat) : Parser := run fuel NT_unary_expression.
Definition p_cast_expression (fuel : nat) : Parser := run fuel NT_cast_expression.
Definition p_multiplicative_expression (fuel : nat) : Parser := run fuel NT_multiplicative_expression.
Definition p_additive_expression (fuel : nat) : Parser := run fuel NT_additive_expression.
Definition p_shift_expression (fuel : nat) : Parser := run fuel NT_shift_expression.
Definition p_relational_expression (fuel : nat) : Parser := run fuel NT_relational_expression.
Definition p_equality_expression (fuel : nat) : Parser := run fuel NT_equality_expression.
Definition p_and_expression (fuel : nat) : Parser := run fuel NT_and_expression.
Definition p_exclusive_or_expression (fuel : nat) : Parser := run fuel NT_exclusive_or_expression.
Definition p_inclusive_or_expression (fuel : nat) : Parser := run fuel NT_inclusive_or_expression.
Definition p_logical_and_expression (fuel : nat) : Parser := run fuel NT_logical_and_expression.
Definition p_logical_or_expression (fuel : nat) : Parser := run fuel NT_logical_or_expression.
Definition p_conditional_expression (fuel : nat) : Parser := run fuel NT_conditional_expression.
Definition p_assignment_expression (fuel : nat) : Parser := run fuel NT_assignment_expression.
Definition p_expression (fuel : nat) : Parser := run fuel NT_expression.
Definition p_constant_expression (fuel : nat) : Parser := run fuel NT_constant_expression.
Definition p_declaration (fuel : nat) : Parser := run fuel NT_declaration.
Definition p_declaration_specifiers (fuel : nat) : Parser := run fuel NT_declaration_specifiers.
Definition p_init_declarator_list (fuel : nat) : Parser := run fuel NT_init_declarator_list.
Definition p_init_declarator (fuel : nat) : Parser := run fuel NT_init_declarator.
Definition p_type_specifier (fuel : nat) : Parser := run fuel NT_type_specifier.
Definition p_struct_or_union_specifier (fuel : nat) : Parser := run fuel NT_struct_or_union_specifier.
Definition p_struct_declaration_list (fuel : nat) : Parser := run fuel NT_struct_declaration_list.
Definition p_struct_declaration (fuel : nat) : Parser := run fuel NT_struct_declaration.
Definition p_specifier_qualifier_list (fuel : nat) : Parser := run fuel NT_specifier_qualifier_list.
Definition p_struct_declarator_list (fuel : nat) : Parser := run fuel NT_struct_declarator_list.
Definition p_struct_declarator (fuel : nat) : Parser := run fuel NT_struct_declarator.
Definition p_enum_specifier (fuel : nat) : Parser := run fuel NT_enum_specifier.
Definition p_enumerator_list (fuel : nat) : Parser := run fuel NT_enumerator_list.
Definition p_enumerator (fuel : nat) : Parser := run fuel NT_enumerator.
Definition p_atomic_type_specifier (fuel : nat) : Parser := run fuel NT_atomic_type_specifier.
Definition p_alignment_specifier (fuel : nat) : Parser := run fuel NT_alignment_specifier.
Definition p_declarator (fuel : nat) : Parser := run fuel NT_declarator.
Definition p_direct_declarator (fuel : nat) : Parser := run fuel NT_direct_declarator.
Definition p_direct_declarator_post_list (fuel : nat) : Parser := run fuel NT_direct_declarator_post_list.
Definition p_direct_declarator_post (fuel : nat) : Parser := run fuel NT_direct_declarator_post.
Definition p_pointer (fuel : nat) : Parser := run fuel NT_pointer.
Definition p_parameter_type_list (fuel : nat) : Parser := run fuel NT_parameter_type_list.
Definition p_parameter_list (fuel : nat) : Parser := run fuel NT_parameter_list.
Definition p_parameter_declaration (fuel : nat) : Parser := run fuel NT_parameter_declaration.
Definition p_type_name (fuel : nat) : Parser := run fuel NT_type_name.
Definition p_abstract_declarator (fuel : nat) : Parser := run fuel NT_abstract_declarator.
Definition p_direct_abstract_declarator (fuel : nat) : Parser := run fuel NT_direct_abstract_declarator.
Definition p_direct_abstract_declarator_block (fuel : nat) : Parser := run fuel NT_direct_abstract_declarator_block.
Definition p_initializer (fuel : nat) : Parser := run fuel NT_initializer.
Definition p_initializer_list (fuel : nat) : Parser := run fuel NT_initializer_list.
Definition p_designation (fuel : nat) : Parser := run fuel NT_designation.
Definition p_designator_list (fuel : nat) : Parser := run fuel NT_designator_list.
Definition p_designator (fuel : nat) : Parser := run fuel NT_designator.
Definition p_static_assert_declaration (fuel : nat) : Parser := run fuel NT_static_assert_declaration.
Definition p_statement (fuel : nat) : Parser := run fuel NT_statement.
Definition p_labeled_statement (fuel : nat) : Parser := run fuel NT_labeled_statement.
Definition p_compound_statement (fuel : nat) : Parser := run fuel NT_compound_statement.
Definition p_block_item_list (fuel : nat) : Parser := run fuel NT_block_item_list.
Definition p_block_item (fuel : nat) : Parser := run fuel NT_block_item.
Definition p_expression_statement (fuel : nat) : Parser := run fuel NT_expression_statement.
Definition p_selection_statement (fuel : nat) : Parser := run fuel NT_selection_statement.
Definition p_iteration_statement (fuel : nat) : Parser := run fuel NT_iteration_statement.
Definition p_jump_statement (fuel : nat) : Parser := run fuel NT_jump_statement.
Definition p_external_declaration (fuel : nat) : Parser := run fuel NT_external_declaration.
Definition p_function_definition (fuel : nat) : Parser := run fuel NT_function_definition.
Definition p_declaration_list (fuel : nat) : Parser := run fuel NT_declaration_list.
Definition p_translation_unit (fuel : nat) : Parser := run fuel NT_translation_unit.

(** [pub fn parser_driver] *)
Definition parser_driver (fuel : nat) (toks : list TokType) (c_src_name : string)
    : Outcome ParseNode :=
  let? '(cur_node, pos) := p_translation_unit fuel toks 0 in
  if Nat.eqb pos (length toks) then Ok cur_node
  else Err ("Parser drive fails to parse the file " ++ c_src_name).

End Grammar.
(** * Specification helpers *)

(** [folds toks pos d c p]: the loop of a precedence level started at [pos]
    has made [d] folds and holds the node [c] with the position [p] after
    it.  The first operand is what [next] parses at [pos]; each fold reads
    an operator [op] at [p], parses the right operand [r] after it, and
    builds a BinaryExpression node typed by the oracle's combination of the
    two operand types. *)
Section Folds.
Context {SM : Sema}.
Variable is_op : TokType -> bool.
Variable next : Parser.

Definition binary_node (op : TokType) (l r : ParseNode) (t : TypeExpression)
    : ParseNode :=
  set_type (push_child (push_child (new (Ast.BinaryExpression op)) l) r) t.

Inductive folds (toks : list TokType) (pos : nat)
    : nat -> ParseNode -> nat -> Prop :=
| folds_first c p :
    next toks pos = Ok (c, p) -> folds toks pos 0 c p
| folds_step d l p op r p' t :
    folds toks pos d l p ->
    nth_error toks p = Some op -> is_op op = true ->
    next toks (p + 1) = Ok (r, p') ->
    judge_combine_type (type_exp l) (type_exp r) op = (true, t) ->
    folds toks pos (S d) (binary_node op l r t) p'.
End Folds.

(** The node of a successful parse (a default node otherwise). *)
Definition ok_node (r : Outcome (ParseNode * nat)) : ParseNode :=
  match r with Ok (n, _) => n | _ => new Ast.TranslationUnit end.


(** Token sequences of the examples. *)
Definition cast_int_1 : list TokType :=
  [LParen; INT; RParen; LParen; IConstant 1; RParen].
Definition args_trailing_comma : list TokType :=
  [IDENTIFIER "a"; Comma; IDENTIFIER "b"; Comma; RParen].
Definition cond_long : list TokType :=
  [IConstant 1; QuestionMark; IConstant 2; Colon; IConstant 3; Semicolon].
Definition cond_double : list TokType :=
  [IConstant 1; QuestionMark; IConstant 2; Colon; FConstant 3.0%float; Semicolon].
Definition decl_trailing_brace : list TokType :=
  [INT; IDENTIFIER "x"; Semicolon; RBrace].
Definition decl_no_semicolon : list TokType :=
  [INT; IDENTIFIER "x"; Assign; IConstant 1].

Section CondNode.
Context {SM : Sema}.
(** The node p_conditional_expression builds for [c ? tb : fb]. *)
Definition cond_node (c tb fb : ParseNode) : ParseNode :=
  push_child (set_type (push_child (push_child
    (set_type (new Ast.ConditionalExpression) (type_exp c)) c) tb) (type_exp fb)) fb.
End CondNode.

Definition decl_ok : list TokType := [INT; IDENTIFIER "x"; Semicolon].
Definition add_sub_ex : list TokType :=
  [IConstant 1; Plus; IConstant 2; Minus; IConstant 3; Semicolon].
Definition add_ident_ex : list TokType :=
  [IDENTIFIER "x"; Plus; IConstant 1; Semicolon].
Definition paren_ident_ex : list TokType :=
  [LParen; IDENTIFIER "x"; RParen; Semicolon].
Definition arg_comma_ex : list TokType := [IDENTIFIER "a"; Comma; RParen].
Definition sizeof_ex : list TokType := [SIZEOF; IDENTIFIER "x"; Semicolon].

(** Rule families, token classes and token sequences used by the further properties. *)

Definition token_rules : list Parser :=
  [p_identifier; p_constant; p_enumeration_constant; p_string; p_unary_operator;
   p_assignment_operator; p_storage_class_specifier; p_struct_or_union;
   p_type_qualifier; p_function_specifier].

Fixpoint ext_chain (ext : Parser) (toks : list TokType) (pos : nat)
    (cs : list ParseNode) (p : nat) : Prop :=
  match cs with
  | [] => pos = p
  | c :: cs => pos < length toks /\
      exists q, ext toks pos = Ok (c, q) /\ ext_chain ext toks q cs p
  end.

Definition is_type_qualifier_tok (t : TokType) : bool :=
  match t with CONST | RESTRICT | VOLATILE | ATOMIC => true | _ => false end.

Fixpoint qualifier_run (l : list TokType) : nat :=
  match l with
  | t :: l => if is_type_qualifier_tok t then S (qualifier_run l) else 0
  | [] => 0
  end.

Fixpoint comma_ids (l : list TokType) : nat :=
  match l with
  | Comma :: IDENTIFIER _ :: l => S (comma_ids l)
  | _ => 0
  end.

Definition starts_expression (t : TokType) : bool :=
  match t with
  | IDENTIFIER _ | IConstant _ | FConstant _ | EnumerationConstant _
  | StringLiteral _ _ | FuncName | GENERIC | LParen
  | IncOp | DecOp | SIZEOF | ALIGNOF
  | Minus | SingleAnd | Multi | Exclamation | Tilde | Plus => true
  | _ => false
  end.

Definition trailing_comma_ex : list TokType := [IDENTIFIER "a"; Comma; RParen].

Definition comma_pair_ex : list TokType := [IDENTIFIER "a"; Comma; IConstant 1; Semicolon].

Definition return_ex : list TokType := [RETURN; IDENTIFIER "x"; RBrace].

Definition bitfield_ex : list TokType := [IDENTIFIER "x"; Colon; IConstant 3; Semicolon].

Definition anon_struct_ex : list TokType :=
  [STRUCT; LBrace; INT; IDENTIFIER "x"; Semicolon; RParen].

Definition init_comma_ex : list TokType := [LBrace; IConstant 1; Comma; RBrace].

Definition ellipsis_ex : list TokType := [INT; IDENTIFIER "a"; Comma; ELLIPSIS; RParen].

Definition paren_decl_ex : list TokType := [LParen; IDENTIFIER "x"; Semicolon].

(** * Proofs *)
Section Proofs.
Context {SM : Sema}.

(** The ten precedence levels of parser.rs are [cascade_level] instances. *)
Lemma cascade_levels f toks pos :
  p_multiplicative_expression (S f) toks pos =
    cascade_level Ast.MultiplicativeExpression is_multiplicative_op
      (p_cast_expression f) toks pos /\
  p_additive_expression (S f) toks pos =
    cascade_level Ast.AdditiveExpression is_additive_op
      (p_multiplicative_expression f) toks pos /\
  p_shift_expression (S f) toks pos =
    cascade_level Ast.ShiftExpression is_shift_op (p_additive_expression f) toks pos /\
  p_relational_expression (S f) toks pos =
    cascade_level Ast.RelationalExpression is_relational_op
      (p_shift_expression f) toks pos /\
  p_equality_expression (S f) toks pos =
    cascade_level Ast.EqualityExpression is_equality_op
      (p_relational_expression f) toks pos /\
  p_and_expression (S f) toks pos =
    cascade_level Ast.AndExpression is_and_op (p_equality_expression f) toks pos /\
  p_exclusive_or_expression (S f) toks pos =
    cascade_level Ast.ExclusiveOrExpression is_exclusive_or_op
      (p_and_expression f) toks pos /\
  p_inclusive_or_expression (S f) toks pos =
    cascade_level Ast.InclusiveOrExpression is_inclusive_or_op
      (p_exclusive_or_expression f) toks pos /\
  p_logical_and_expression (S f) toks pos =
    cascade_level Ast.LogicalAndExpression is_logical_and_op
      (p_inclusive_or_expression f) toks pos /\
  p_logical_or_expression (S f) toks pos =
    cascade_level Ast.LogicalOrExpression is_logical_or_op
      (p_logical_and_expression f) toks pos.
Proof. repeat (split; [reflexivity|]). reflexivity. Qed.

Lemma check_pos_lt pos len : pos < len -> check_pos pos len = Ok tt.
Proof. intro H. unfold check_pos. destruct (Nat.leb_spec len pos); [lia | reflexivity]. Qed.

Lemma translation_unit_loop_end ext k toks cur pos res p :
  translation_unit_loop ext k toks cur pos = Ok (res, p) -> length toks <= p.
Proof.
  revert cur pos. induction k as [|k IH]; intros cur pos H; simpl in H; [discriminate|].
  destruct (Nat.leb_spec (length toks) pos).
  - injection H as <- <-. assumption.
  - destruct (ext toks pos) as [[c t]| | |]; simpl in H; try discriminate.
    exact (IH _ _ H).
Qed.

Lemma p_translation_unit_end fuel toks pos res p :
  p_translation_unit fuel toks pos = Ok (res, p) -> length toks <= p.
Proof.
  destruct fuel as [|f]; intro H; [discriminate|].
  cbn [p_translation_unit run body_of] in H. unfold p_translation_unit_body in H.
  destruct (check_pos pos (length toks)) as [[]| | |]; simpl in H; try discriminate.
  exact (translation_unit_loop_end _ _ _ _ _ _ _ H).
Qed.

(** C1 (corrected).  parser_driver returns a parse tree only when
    p_translation_unit stopped exactly at the end of the token stream.  When
    it fails, its error is either the error of p_translation_unit (that is,
    of p_external_declaration on the first token it could not parse),
    passed on unchanged, or the message naming the source file; the latter
    only when the loop stopped past the end of the stream.  So trailing
    tokens that p_external_declaration cannot parse never yield the
    source-label message. *)
Theorem parser_driver_result fuel toks name :
  (forall cur, parser_driver fuel toks name = Ok cur ->
     p_translation_unit fuel toks 0 = Ok (cur, length toks)) /\
  (forall msg, parser_driver fuel toks name = Err msg ->
     p_translation_unit fuel toks 0 = Err msg \/
     exists cur p, p_translation_unit fuel toks 0 = Ok (cur, p) /\
       length toks < p /\ msg = "Parser drive fails to parse the file " ++ name).
Proof.
  unfold parser_driver.
  destruct (p_translation_unit fuel toks 0) as [[cur p]| m | |] eqn:E; simpl;
    split; intros x H; try discriminate.
  - destruct (Nat.eqb_spec p (length toks)); [|discriminate].
    injection H as <-. subst. reflexivity.
  - destruct (Nat.eqb_spec p (length toks)); [discriminate|].
    injection H as <-. right. exists cur, p. repeat split; try reflexivity.
    apply p_translation_unit_end in E. lia.
  - left. injection H as <-. reflexivity.
Qed.

(** C7.  An integer constant token yields a constant node typed long. *)
Theorem p_constant_iconstant_long toks pos i :
  nth_error toks pos = Some (IConstant i) ->
  p_constant toks pos =
    Ok (set_type (new (Ast.Constant (Ast.I64 i))) (new_val Symtable.Long), pos + 1).
Proof.
  intro H. unfold p_constant.
  rewrite check_pos_lt by (apply nth_error_Some; congruence).
  simpl. unfold at_index. rewrite H. reflexivity.
Qed.

(** C9.  A successful unary expression starting with [sizeof] or [_Alignof]
    has the type SizeT, whatever its operand. *)
Theorem p_unary_expression_sizeof_type fuel toks pos n p :
  (nth_error toks pos = Some SIZEOF \/ nth_error toks pos = Some ALIGNOF) ->
  p_unary_expression fuel toks pos = Ok (n, p) ->
  type_exp n = new_val Symtable.SizeT.
Proof.
  intros Hs H. destruct fuel as [|f]; [discriminate|].
  cbn [p_unary_expression run body_of] in H. unfold p_unary_expression_body in H.
  destruct (check_pos pos (length toks)) as [[]| | |]; simpl in H; try discriminate.
  unfold at_index at 1 in H.
  destruct Hs as [Hs|Hs]; rewrite Hs in H; cbn beta iota zeta in H.
  - unfold at_index in H. destruct (nth_error toks (pos + 1)); [|discriminate].
    destruct (check_tok (pos + 1) toks LParen) as [[]| | |]; simpl in H; try discriminate.
    + destruct (run f NT_type_name toks (pos + 1)) as [[c q]| | |]; simpl in H;
        try discriminate.
      injection H as <- _. reflexivity.
    + destruct (run f NT_unary_expression toks (pos + 1)) as [[c q]| | |]; simpl in H;
        try discriminate.
      injection H as <- _. reflexivity.
  - destruct (check_tok (pos + 1) toks LParen) as [[]| | |]; simpl in H; try discriminate.
    + destruct (run f NT_type_name toks (pos + 1 + 1)) as [[c q]| | |]; simpl in H;
        try discriminate.
      injection H as <- _. reflexivity.
    + unfold at_index in H. destruct (nth_error toks (pos + 1)); discriminate.
Qed.

End Proofs.

Section CascadeProofs.
Context {SM : Sema}.
Variable kind : NodeType.
Variable is_op : TokType -> bool.
Variable next : Parser.

Lemma cascade_loop_step k toks l op p r p' t :
  next toks (p + 1) = Ok (r, p') ->
  judge_combine_type (type_exp l) (type_exp r) op = (true, t) ->
  cascade_loop kind is_op next (S k) toks l (type_exp l) op p =
    at_index toks p' (fun tok =>
      if is_op tok
      then cascade_loop kind is_op next k toks (binary_node op l r t) t tok p'
      else Ok (push_child (set_type (new kind) t) (binary_node op l r t), p')).
Proof. intros Hn Hj. simpl. rewrite Hn. simpl. rewrite Hj. reflexivity. Qed.

Lemma cascade_level_first toks pos c p :
  pos < length toks -> next toks pos = Ok (c, p) ->
  cascade_level kind is_op next toks pos =
    at_index toks p (fun tok =>
      if negb (is_op tok)
      then Ok (push_child (set_type (new kind) (type_exp c)) c, p)
      else cascade_loop kind is_op next (S (length toks)) toks c (type_exp c) tok p).
Proof.
  intros Hl Hn. unfold cascade_level. rewrite check_pos_lt by exact Hl.
  simpl. rewrite Hn. reflexivity.
Qed.

(** After [d] folds the level is in its loop with [S (length toks) - d]
    turns left. *)
Lemma cascade_level_reaches toks pos d l p op :
  pos < length toks ->
  folds is_op next toks pos d l p -> d <= length toks ->
  nth_error toks p = Some op -> is_op op = true ->
  cascade_level kind is_op next toks pos =
    cascade_loop kind is_op next (S (length toks) - d) toks l (type_exp l) op p.
Proof.
  intros Hl Hf. revert op. induction Hf as [c p Hn|d l p op r p' t Hf IH Hp Ho Hn Hj];
    intros op' Hd Hp' Ho'.
  - rewrite (cascade_level_first _ _ _ _ Hl Hn). unfold at_index. rewrite Hp'.
    rewrite Ho'. simpl. reflexivity.
  - rewrite (IH op) by (auto; lia).
    replace (S (length toks) - d) with (S (length toks - d)) by lia.
    rewrite (cascade_loop_step _ _ _ _ _ _ _ _ Hn Hj).
    unfold at_index. rewrite Hp', Ho'. reflexivity.
Qed.

Lemma cascade_loop_success k toks pos d l p op res q :
  folds is_op next toks pos d l p -> nth_error toks p = Some op -> is_op op = true ->
  cascade_loop kind is_op next k toks l (type_exp l) op p = Ok (res, q) ->
  exists d' c op', folds is_op next toks pos d' c q /\
    nth_error toks q = Some op' /\ is_op op' = false /\
    res = push_child (set_type (new kind) (type_exp c)) c.
Proof.
  revert d l p op. induction k as [|k IH]; intros d l p op Hf Hp Ho H; [discriminate|].
  simpl in H.
  destruct (next toks (p + 1)) as [[r p']| | |] eqn:Hn; simpl in H; try discriminate.
  destruct (judge_combine_type (type_exp l) (type_exp r) op) as [[|] t] eqn:Hj;
    [|discriminate].
  assert (Hf' : folds is_op next toks pos (S d) (binary_node op l r t) p')
    by (econstructor; eauto).
  unfold at_index in H. destruct (nth_error toks p') as [op'|] eqn:Hp'; [|discriminate].
  destruct (is_op op') eqn:Ho'.
  - exact (IH _ _ _ _ Hf' Hp' Ho' H).
  - injection H as <- <-. exists (S d), (binary_node op l r t), op'. auto.
Qed.

(** C2.  At every precedence level: a successful parse is a chain of folds
    ([folds]) whose every BinaryExpression node carries the type returned
    by [judge_combine_type] on the accumulated left type, the right
    operand's type and the operator, and the level node takes the type of
    the last fold; and whenever the oracle rejects one fold reached by the
    loop, the whole level returns the error. *)
Theorem cascade_level_types_from_oracle toks pos :
  (forall res p, cascade_level kind is_op next toks pos = Ok (res, p) ->
     exists d c op, folds is_op next toks pos d c p /\
       nth_error toks p = Some op /\ is_op op = false /\
       res = push_child (set_type (new kind) (type_exp c)) c) /\
  (forall d l p op r p' t,
     pos < length toks -> d <= length toks ->
     folds is_op next toks pos d l p ->
     nth_error toks p = Some op -> is_op op = true ->
     next toks (p + 1) = Ok (r, p') ->
     judge_combine_type (type_exp l) (type_exp r) op = (false, t) ->
     cascade_level kind is_op next toks pos = Err "can not use type:  to  type , ").
Proof.
  split.
  - intros res p H.
    destruct (Nat.ltb_spec pos (length toks)) as [Hl|Hl].
    2:{ unfold cascade_level, check_pos in H.
        destruct (Nat.leb_spec (length toks) pos); [discriminate | lia]. }
    destruct (next toks pos) as [[c p0]| | |] eqn:Hn;
      try (unfold cascade_level in H; rewrite check_pos_lt in H by exact Hl;
           cbn [bind] in H; rewrite Hn in H; discriminate).
    rewrite (cascade_level_first _ _ _ _ Hl Hn) in H.
    unfold at_index in H. destruct (nth_error toks p0) as [op|] eqn:Hp; [|discriminate].
    destruct (is_op op) eqn:Ho; cbn [negb] in H.
    + exact (cascade_loop_success _ _ _ 0 c p0 op _ _ (folds_first _ _ _ _ _ _ Hn) Hp Ho H).
    + injection H as <- <-. exists 0, c, op. repeat split; auto. constructor. exact Hn.
  - intros d l p op r p' t Hl Hd Hf Hp Ho Hn Hj.
    rewrite (cascade_level_reaches _ _ _ _ _ _ Hl Hf Hd Hp Ho).
    replace (S (length toks) - d) with (S (length toks - d)) by lia.
    simpl. rewrite Hn. simpl. rewrite Hj. reflexivity.
Qed.

(** C3.  For [a OP1 b OP2 c] at one level (OP1, OP2 operators of the level,
    followed by a non-operator), the tree is [(a OP1 b) OP2 c]: the OP2 node
    has the OP1 node as its left child and [c] as its right child. *)
Theorem cascade_level_left_assoc toks pos a p1 op1 b p2 op2 c p3 op3 t1 t2 :
  pos < length toks ->
  next toks pos = Ok (a, p1) ->
  nth_error toks p1 = Some op1 -> is_op op1 = true ->
  next toks (p1 + 1) = Ok (b, p2) ->
  judge_combine_type (type_exp a) (type_exp b) op1 = (true, t1) ->
  nth_error toks p2 = Some op2 -> is_op op2 = true ->
  next toks (p2 + 1) = Ok (c, p3) ->
  judge_combine_type t1 (type_exp c) op2 = (true, t2) ->
  nth_error toks p3 = Some op3 -> is_op op3 = false ->
  cascade_level kind is_op next toks pos =
    Ok (push_child (set_type (new kind) t2)
          (binary_node op2 (binary_node op1 a b t1) c t2), p3).
Proof.
  intros Hl Ha Hp1 Ho1 Hb Hj1 Hp2 Ho2 Hc Hj2 Hp3 Ho3.
  rewrite (cascade_level_first _ _ _ _ Hl Ha). unfold at_index. rewrite Hp1, Ho1.
  simpl negb. cbv iota.
  rewrite (cascade_loop_step _ _ _ _ _ _ _ _ Hb Hj1). unfold at_index. rewrite Hp2, Ho2.
  assert (Hlen : 0 < length toks) by lia.
  destruct (length toks) as [|m]; [lia|].
  simpl. rewrite Hc. simpl. rewrite Hj2. unfold at_index. rewrite Hp3, Ho3. reflexivity.
Qed.

(** C8.  When the token after the first operand is not an operator of the
    level, the level node has that operand as its only child and exactly its
    type; this holds for every oracle, whose combination function is not
    consulted. *)
Theorem cascade_level_single_operand toks pos c p t :
  pos < length toks ->
  next toks pos = Ok (c, p) -> nth_error toks p = Some t -> is_op t = false ->
  cascade_level kind is_op next toks pos =
    Ok (push_child (set_type (new kind) (type_exp c)) c, p).
Proof.
  intros Hl Hn Hp Ho. rewrite (cascade_level_first _ _ _ _ Hl Hn).
  unfold at_index. rewrite Hp, Ho. reflexivity.
Qed.

Lemma cascade_level_panics_at_end toks pos c :
  pos < length toks -> next toks pos = Ok (c, length toks) ->
  cascade_level kind is_op next toks pos = Panic.
Proof.
  intros Hl Hn. rewrite (cascade_level_first _ _ _ _ Hl Hn).
  unfold at_index. rewrite (proj2 (nth_error_None toks (length toks)) (le_n _)).
  reflexivity.
Qed.

End CascadeProofs.

Section CastProofs.
Context {SM : Sema}.

Lemma nth_error_lt {A} (l : list A) n x : nth_error l n = Some x -> n < length l.
Proof. intro H. apply nth_error_Some. congruence. Qed.

Lemma check_tok_rparen pos toks :
  check_tok pos toks RParen = Ok tt -> nth_error toks pos = Some RParen.
Proof.
  unfold check_tok, check_pos.
  destruct (Nat.leb (length toks) pos); [discriminate|]. cbn [bind].
  unfold at_index. destruct (nth_error toks pos) as [t|]; [|discriminate].
  destruct t; cbn; congruence.
Qed.

(** Tactic: evaluate the token-level rules at a position holding [RParen]. *)
Ltac at_rparen H E :=
  let Hl := fresh "Hl" in
  pose proof (nth_error_lt _ _ _ H) as Hl;
  unfold p_identifier, p_constant, p_string, p_unary_operator, check_tok,
    at_index in E;
  rewrite (check_pos_lt _ _ Hl) in E; rewrite H in E; cbn in E.

Lemma generic_selection_rparen f toks pos r :
  nth_error toks pos = Some RParen -> run f NT_generic_selection toks pos <> Ok r.
Proof.
  intros H E. destruct f as [|f]; [discriminate|].
  cbn [run body_of] in E. unfold p_generic_selection_body in E.
  at_rparen H E. discriminate.
Qed.

Lemma primary_expression_rparen f toks pos r :
  nth_error toks pos = Some RParen -> run f NT_primary_expression toks pos <> Ok r.
Proof.
  intros H E. destruct f as [|f]; [discriminate|].
  cbn [run body_of] in E. unfold p_primary_expression_body in E.
  at_rparen H E.
  destruct (run f NT_generic_selection toks pos) as [r'| | |] eqn:G; try discriminate.
  exact (generic_selection_rparen _ _ _ _ H G).
Qed.

Lemma postfix_expression_rparen f toks pos r :
  nth_error toks pos = Some RParen -> run f NT_postfix_expression toks pos <> Ok r.
Proof.
  intros H E. destruct f as [|f]; [discriminate|].
  cbn [run body_of] in E. unfold p_postfix_expression_body in E.
  at_rparen H E.
  destruct (run f NT_primary_expression toks pos) as [r'| | |] eqn:G; try discriminate.
  exact (primary_expression_rparen _ _ _ _ H G).
Qed.

Lemma unary_expression_rparen f toks pos r :
  nth_error toks pos = Some RParen -> run f NT_unary_expression toks pos <> Ok r.
Proof.
  intros H E. destruct f as [|f]; [discriminate|].
  cbn [run body_of] in E. unfold p_unary_expression_body in E.
  at_rparen H E.
  destruct (run f NT_postfix_expression toks pos) as [r'| | |] eqn:G; try discriminate.
  exact (postfix_expression_rparen _ _ _ _ H G).
Qed.

Lemma cast_expression_rparen f toks pos r :
  nth_error toks pos = Some RParen -> p_cast_expression f toks pos <> Ok r.
Proof.
  intros H E. destruct f as [|f]; [discriminate|].
  cbn [p_cast_expression run body_of] in E. unfold p_cast_expression_body in E.
  at_rparen H E.
  destruct (run f NT_unary_expression toks pos) as [r'| | |] eqn:G; try discriminate.
  exact (unary_expression_rparen _ _ _ _ H G).
Qed.

End CastProofs.

Section MoreProofs.
Context {SM : Sema}.

(** C4 (code bug).  p_cast_expression succeeds only through its
    unary-expression branch: in the parenthesised branch it calls itself at
    the position of the closing [)], where no cast expression starts, so a
    cast [( type-name ) cast-expression] never parses; in particular
    [(int)(1)] fails, whatever the oracle. *)
Theorem p_cast_expression_paren_fails :
  (forall fuel toks pos n p,
     p_cast_expression (S fuel) toks pos = Ok (n, p) ->
     exists c, p_unary_expression fuel toks pos = Ok (c, p) /\
       n = push_child (set_type (new Ast.CastExpression) (type_exp c)) c) /\
  p_cast_expression 50 cast_int_1 0 = Err "Error parse cast_expression".
Proof.
  split; [|vm_compute; reflexivity].
  intros fuel toks pos n p H.
  cbn [p_cast_expression run body_of] in H. unfold p_cast_expression_body in H.
  destruct (check_pos pos (length toks)) as [[]| | |]; cbn [bind] in H; try discriminate.
  destruct (run fuel NT_unary_expression toks pos) as [[c q]| | |] eqn:U;
    cbn [if_ok] in H; try discriminate.
  - unfold adopt in H. injection H as <- <-. exists c. split; [exact U | reflexivity].
  - destruct (check_tok pos toks LParen) as [[]| | |]; cbn [if_ok] in H; try discriminate.
    destruct (run fuel NT_type_name toks (pos + 1)) as [[tn q]| | |];
      cbn [bind] in H; try discriminate.
    destruct (check_tok q toks RParen) as [[]| | |] eqn:R; cbn [bind] in H;
      try discriminate.
    apply check_tok_rparen in R.
    destruct (run fuel NT_cast_expression toks q) as [[cn q']| | |] eqn:C;
      cbn [bind] in H; try discriminate.
    exfalso. exact (cast_expression_rparen fuel toks q _ R C).
Qed.

Lemma check_tok_comma pos toks :
  nth_error toks pos = Some Comma -> check_tok pos toks Comma = Ok tt.
Proof.
  intro H. unfold check_tok. rewrite (check_pos_lt _ _ (nth_error_lt _ _ _ H)).
  cbn [bind]. unfold at_index. rewrite H. reflexivity.
Qed.

(** C5 (code bug).  When the item after a comma fails to parse,
    p_argument_expression_list returns the position of the comma minus one,
    i.e. the last token of the previous item, not the comma; for
    [a , b , )] it returns two items and position 2 (the [b]) while the
    trailing comma is at position 3. *)
Theorem p_argument_expression_list_trailing_comma :
  (forall f toks pos c p m,
     pos < length toks ->
     p_assignment_expression (S f) toks pos = Ok (c, p) ->
     nth_error toks p = Some Comma ->
     p_assignment_expression (S f) toks (p + 1) = Err m ->
     p_argument_expression_list (S (S f)) toks pos =
       Ok (set_type (attach (new Ast.ArgumentExpressionList) c) (type_exp c), p - 1)) /\
  exists n, p_argument_expression_list 50 args_trailing_comma 0 = Ok (n, 2) /\
    length (child n) = 2 /\ nth_error args_trailing_comma 3 = Some Comma.
Proof.
  split.
  - intros f toks pos c p m Hl Ha Hp Hb.
    unfold p_assignment_expression in Ha, Hb.
    change (p_argument_expression_list (S (S f)) toks pos) with
      (p_argument_expression_list_body (run (S f)) (S f) toks pos).
    unfold p_argument_expression_list_body. rewrite (check_pos_lt _ _ Hl).
    cbn [bind]. rewrite Ha. cbn [bind].
    cbn [if_ok]. rewrite (check_tok_comma _ _ Hp). cbn [if_ok]. rewrite Hb.
    reflexivity.
  - eexists. split; [vm_compute; reflexivity | split; reflexivity].
Qed.

(** C10 (code bug).  A precedence level whose first operand ends at the end
    of the token stream reads [toks[len]] and panics; the truncated
    declaration [int x = 1] makes parser_driver panic, as do the expression
    [1] alone and [sizeof] at the end of the stream, whatever the oracle. *)
Theorem p_multiplicative_expression_panics :
  (forall kind is_op next toks pos c,
     pos < length toks -> next toks pos = Ok (c, length toks) ->
     cascade_level kind is_op next toks pos = Panic) /\
  parser_driver 100 decl_no_semicolon "a.c" = Panic /\
  p_multiplicative_expression 50 [IConstant 1] 0 = Panic /\
  p_unary_expression 50 [SIZEOF] 0 = Panic.
Proof.
  split; [|repeat split; vm_compute; reflexivity].
  intros kind is_op next toks pos c. apply cascade_level_panics_at_end.
Qed.

End MoreProofs.

Section CondProofs.
Context {SM : Sema}.

Lemma check_tok_at pos toks t :
  nth_error toks pos = Some t -> tok_eqb t t = true -> check_tok pos toks t = Ok tt.
Proof.
  intros H He. unfold check_tok. rewrite (check_pos_lt _ _ (nth_error_lt _ _ _ H)).
  cbn [bind]. unfold at_index. rewrite H. cbn beta. rewrite He. reflexivity.
Qed.

Lemma check_tok_colon pos toks :
  check_tok pos toks Colon = Ok tt -> nth_error toks pos = Some Colon.
Proof.
  unfold check_tok, check_pos.
  destruct (Nat.leb (length toks) pos); [discriminate|]. cbn [bind].
  unfold at_index. destruct (nth_error toks pos) as [t|]; [|discriminate].
  destruct t; cbn; congruence.
Qed.

Lemma p_conditional_expression_not_in_range f toks pos r :
  length toks <= pos -> p_conditional_expression (S f) toks pos <> Ok r.
Proof.
  intros Hl E.
  change (p_conditional_expression (S f) toks pos) with
    (p_conditional_expression_body (run f) f toks pos) in E.
  unfold p_conditional_expression_body, check_pos in E.
  destruct (Nat.leb_spec (length toks) pos); [discriminate | lia].
Qed.

(** The body of p_conditional_expression once [?] has been seen. *)
Lemma conditional_question f toks pos c p1 :
  pos < length toks ->
  p_logical_or_expression f toks pos = Ok (c, p1) ->
  nth_error toks p1 = Some QuestionMark ->
  p_conditional_expression (S f) toks pos =
    if is_condition_type (type_exp c) then
      let? '(tb, p2) := p_expression f toks (p1 + 1) in
      let? _ := check_tok p2 toks Colon in
      let? '(fb, p3) := p_conditional_expression f toks (p2 + 1) in
      if Bool.eqb (judge_type_same (type_exp tb) (type_exp fb)) false
      then Err "Two option expression in Teneray Expression has different type"
      else Ok (cond_node c tb fb, p3)
    else Err "Conditional Expression doesn't have logical expression".
Proof.
  intros Hl Hc Hq.
  change (p_conditional_expression (S f) toks pos) with
    (p_conditional_expression_body (run f) f toks pos).
  unfold p_conditional_expression_body. rewrite (check_pos_lt _ _ Hl). cbn [bind].
  unfold p_logical_or_expression in Hc. rewrite Hc. cbn [if_ok].
  rewrite (check_tok_at _ _ _ Hq eq_refl). cbn [if_ok].
  destruct (is_condition_type (type_exp c)); reflexivity.
Qed.

(** Replace a closed subterm [t] of [E] by its value. *)
Ltac eval_in E t :=
  let v := eval vm_compute in t in
  replace t with v in E by (vm_compute; reflexivity).

(** C6.  When [?] follows the condition, p_conditional_expression succeeds
    only if the condition's type is type-equal (per the oracle) to one of
    int, bool, long, signed, unsigned or char, the true branch (an
    expression) and the false branch (a conditional expression) are
    type-equal, and then the node's type is the false branch's type.  With
    an oracle for which long and double differ, [1 ? 2 : 3.0] fails; with
    one for which long equals long, [1 ? 2 : 3] succeeds with type long. *)
Theorem p_conditional_expression_question_typed :
  (forall f toks pos c p1 n p,
     p_logical_or_expression f toks pos = Ok (c, p1) ->
     nth_error toks p1 = Some QuestionMark ->
     p_conditional_expression (S f) toks pos = Ok (n, p) ->
     (exists b, In b [Symtable.Int; Symtable.Bool; Symtable.Long; Symtable.Signed;
                      Symtable.Unsigned; Symtable.Char] /\
                judge_type_same (type_exp c) (new_val b) = true) /\
     exists tb p2 fb,
       p_expression f toks (p1 + 1) = Ok (tb, p2) /\
       nth_error toks p2 = Some Colon /\
       p_conditional_expression f toks (p2 + 1) = Ok (fb, p) /\
       judge_type_same (type_exp tb) (type_exp fb) = true /\
       type_exp n = type_exp fb) /\
  (judge_type_same (new_val Symtable.Long) (new_val Symtable.Double) = false ->
     forall r, p_conditional_expression 50 cond_double 0 <> Ok r) /\
  (judge_type_same (new_val Symtable.Long) (new_val Symtable.Long) = true ->
     exists n, p_conditional_expression 50 cond_long 0 = Ok (n, 5) /\
       type_exp n = new_val Symtable.Long).
Proof.
  split; [|split].
  - intros f toks pos c p1 n p Hc Hq H.
    destruct (Nat.ltb_spec pos (length toks)) as [Hl|Hl];
      [|exfalso; exact (p_conditional_expression_not_in_range _ _ _ _ Hl H)].
    rewrite (conditional_question _ _ _ _ _ Hl Hc Hq) in H.
    destruct (is_condition_type (type_exp c)) eqn:Hct; [|discriminate].
    destruct (p_expression f toks (p1 + 1)) as [[tb p2]| | |] eqn:He;
      cbn [bind] in H; try discriminate.
    destruct (check_tok p2 toks Colon) as [[]| | |] eqn:Hcol;
      cbn [bind] in H; try discriminate.
    destruct (p_conditional_expression f toks (p2 + 1)) as [[fb p3]| | |] eqn:Hf;
      cbn [bind] in H; try discriminate.
    destruct (judge_type_same (type_exp tb) (type_exp fb)) eqn:Hj; cbn in H;
      [|discriminate].
    injection H as <- <-. split.
    + unfold is_condition_type in Hct. rewrite !orb_true_iff in Hct.
      destruct Hct as [[[[[Hb|Hb]|Hb]|Hb]|Hb]|Hb];
        eexists; (split; [|exact Hb]); simpl; tauto.
    + exists tb, p2, fb. repeat split; auto. apply check_tok_colon. exact Hcol.
  - intros Hld r E.
    rewrite (conditional_question 49 cond_double 0
               (ok_node (p_logical_or_expression 49 cond_double 0)) 1
               ltac:(cbn; lia) ltac:(vm_compute; reflexivity) eq_refl) in E.
    destruct (is_condition_type _); [|discriminate].
    eval_in E (p_expression 49 cond_double (1 + 1)). cbn [bind] in E.
    eval_in E (check_tok 3 cond_double Colon). cbn [bind] in E.
    eval_in E (p_conditional_expression 49 cond_double (3 + 1)). cbn [bind] in E.
    cbn [type_exp] in E. unfold new_val in Hld. rewrite Hld in E. discriminate.
  - intros Hll.
    rewrite (conditional_question 49 cond_long 0
               (ok_node (p_logical_or_expression 49 cond_long 0)) 1
               ltac:(cbn; lia) ltac:(vm_compute; reflexivity) eq_refl).
    replace (type_exp (ok_node (p_logical_or_expression 49 cond_long 0)))
      with (new_val Symtable.Long) by (vm_compute; reflexivity).
    replace (is_condition_type (new_val Symtable.Long)) with true
      by (unfold is_condition_type; rewrite Hll, !orb_true_r; reflexivity).
    replace (p_expression 49 cond_long (1 + 1))
      with (Ok (ok_node (p_expression 49 cond_long 2), 3)) by (vm_compute; reflexivity).
    cbn [bind].
    replace (check_tok 3 cond_long Colon) with (Ok (A:=unit) tt)
      by (vm_compute; reflexivity).
    cbn [bind].
    replace (p_conditional_expression 49 cond_long (3 + 1))
      with (Ok (ok_node (p_conditional_expression 49 cond_long 4), 5))
      by (vm_compute; reflexivity).
    cbn [bind].
    replace (type_exp (ok_node (p_expression 49 cond_long 2)))
      with (new_val Symtable.Long) by (vm_compute; reflexivity).
    assert (Ht : type_exp (ok_node (p_conditional_expression 49 cond_long 4)) =
                 new_val Symtable.Long) by (vm_compute; reflexivity).
    rewrite Ht, Hll. cbn [Bool.eqb]. eexists. split; [reflexivity|]. reflexivity.
Qed.

End CondProofs.

(** * Instances on concrete inputs *)

Lemma parser_driver_result_witness :
  exists cur, @parser_driver spec_sema 100 decl_ok "a.c" = Ok cur /\
    @p_translation_unit spec_sema 100 decl_ok 0 = Ok (cur, 3).
Proof.
  exists (ok_node (@p_translation_unit spec_sema 100 decl_ok 0)).
  split; [vm_compute; reflexivity|].
  apply (proj1 (@parser_driver_result spec_sema 100 decl_ok "a.c")).
  vm_compute. reflexivity.
Defined.

(** C1, counterexample: [int x ; }] fails with the error of
    p_external_declaration, not with the source-label message. *)
Lemma parser_driver_trailing_brace :
  @parser_driver spec_sema 100 decl_trailing_brace "a.c" = Err "Can't parse declaration".
Proof. vm_compute. reflexivity. Qed.

Lemma cascade_level_types_from_oracle_witness :
  (exists d c op,
     @folds spec_sema is_additive_op (@p_multiplicative_expression spec_sema 50)
       add_sub_ex 0 d c 5 /\
     nth_error add_sub_ex 5 = Some op /\ is_additive_op op = false /\
     ok_node (@cascade_level spec_sema Ast.AdditiveExpression is_additive_op
                (@p_multiplicative_expression spec_sema 50) add_sub_ex 0) =
       push_child (set_type (new Ast.AdditiveExpression) (type_exp c)) c) /\
  @cascade_level spec_sema Ast.AdditiveExpression is_additive_op
    (@p_multiplicative_expression spec_sema 50) add_ident_ex 0 =
    Err "can not use type:  to  type , ".
Proof.
  pose proof (@cascade_level_types_from_oracle spec_sema Ast.AdditiveExpression
                is_additive_op (@p_multiplicative_expression spec_sema 50)) as T.
  split.
  - apply (proj1 (T add_sub_ex 0)). vm_compute. reflexivity.
  - apply (proj2 (T add_ident_ex 0)) with
      (d := 0) (l := ok_node (@p_multiplicative_expression spec_sema 50 add_ident_ex 0))
      (p := 1) (op := Plus)
      (r := ok_node (@p_multiplicative_expression spec_sema 50 add_ident_ex 2))
      (p' := 3) (t := new_val (Symtable.Identifier "x")).
    + cbn. lia.
    + cbn. lia.
    + constructor. vm_compute. reflexivity.
    + reflexivity.
    + reflexivity.
    + vm_compute. reflexivity.
    + vm_compute. reflexivity.
Defined.

Lemma cascade_level_left_assoc_witness :
  let next := @p_multiplicative_expression spec_sema 50 in
  let a := ok_node (next add_sub_ex 0) in
  let b := ok_node (next add_sub_ex 2) in
  let c := ok_node (next add_sub_ex 4) in
  let t1 := snd (@judge_combine_type spec_sema (type_exp a) (type_exp b) Plus) in
  let t2 := snd (@judge_combine_type spec_sema t1 (type_exp c) Minus) in
  @cascade_level spec_sema Ast.AdditiveExpression is_additive_op next add_sub_ex 0 =
    Ok (push_child (set_type (new Ast.AdditiveExpression) t2)
          (binary_node Minus (binary_node Plus a b t1) c t2), 5).
Proof.
  intros next a b c t1 t2.
  apply (@cascade_level_left_assoc spec_sema Ast.AdditiveExpression is_additive_op next
           add_sub_ex 0 a 1 Plus b 3 Minus c 5 Semicolon t1 t2);
    first [vm_compute; reflexivity | cbn; lia].
Defined.

Lemma cascade_level_single_operand_witness :
  let next := @p_additive_expression spec_sema 50 in
  @cascade_level spec_sema Ast.ShiftExpression is_shift_op next [IConstant 1; Plus; IConstant 2; Semicolon] 0 =
    Ok (push_child (set_type (new Ast.ShiftExpression)
                      (type_exp (ok_node (next [IConstant 1; Plus; IConstant 2; Semicolon] 0))))
          (ok_node (next [IConstant 1; Plus; IConstant 2; Semicolon] 0)), 3).
Proof.
  intro next.
  apply (@cascade_level_single_operand spec_sema Ast.ShiftExpression is_shift_op next
           [IConstant 1; Plus; IConstant 2; Semicolon] 0 _ 3 Semicolon);
    first [vm_compute; reflexivity | cbn; lia].
Defined.

Lemma p_multiplicative_expression_panics_witness :
  @cascade_level spec_sema Ast.MultiplicativeExpression is_multiplicative_op
    (@p_cast_expression spec_sema 50) [IConstant 1] 0 = Panic.
Proof.
  apply (proj1 (@p_multiplicative_expression_panics spec_sema)
           _ _ _ [IConstant 1] 0 (ok_node (@p_cast_expression spec_sema 50 [IConstant 1] 0)));
    first [vm_compute; reflexivity | cbn; lia].
Defined.

Lemma p_cast_expression_paren_fails_witness :
  exists c, @p_unary_expression spec_sema 49 paren_ident_ex 0 = Ok (c, 3) /\
    ok_node (@p_cast_expression spec_sema 50 paren_ident_ex 0) =
      push_child (set_type (new Ast.CastExpression) (type_exp c)) c.
Proof.
  apply (proj1 (@p_cast_expression_paren_fails spec_sema) 49 paren_ident_ex 0).
  vm_compute. reflexivity.
Defined.

Lemma p_argument_expression_list_trailing_comma_witness :
  @p_argument_expression_list spec_sema 50 arg_comma_ex 0 =
    Ok (set_type (attach (new Ast.ArgumentExpressionList)
                    (ok_node (@p_assignment_expression spec_sema 49 arg_comma_ex 0)))
          (type_exp (ok_node (@p_assignment_expression spec_sema 49 arg_comma_ex 0))), 0).
Proof.
  apply (proj1 (@p_argument_expression_list_trailing_comma spec_sema) 48 arg_comma_ex 0
           _ 1 "Error parse logical_or_expressiong");
    first [vm_compute; reflexivity | cbn; lia].
Defined.

Lemma p_conditional_expression_question_typed_witness :
  (exists b, In b [Symtable.Int; Symtable.Bool; Symtable.Long; Symtable.Signed;
                   Symtable.Unsigned; Symtable.Char] /\
     @judge_type_same spec_sema
       (type_exp (ok_node (@p_logical_or_expression spec_sema 49 cond_long 0)))
       (new_val b) = true) /\
  exists tb p2 fb,
    @p_expression spec_sema 49 cond_long 2 = Ok (tb, p2) /\
    nth_error cond_long p2 = Some Colon /\
    @p_conditional_expression spec_sema 49 cond_long (p2 + 1) = Ok (fb, 5) /\
    @judge_type_same spec_sema (type_exp tb) (type_exp fb) = true /\
    type_exp (ok_node (@p_conditional_expression spec_sema 50 cond_long 0)) = type_exp fb.
Proof.
  apply (proj1 (@p_conditional_expression_question_typed spec_sema) 49 cond_long 0
           _ 1 _ 5); vm_compute; reflexivity.
Defined.

Lemma p_constant_iconstant_long_witness :
  p_constant [IConstant 1] 0 =
    Ok (set_type (new (Ast.Constant (Ast.I64 1))) (new_val Symtable.Long), 1).
Proof. apply (p_constant_iconstant_long [IConstant 1] 0 1). reflexivity. Defined.

Lemma p_unary_expression_sizeof_type_witness :
  type_exp (ok_node (@p_unary_expression spec_sema 50 sizeof_ex 0)) =
    new_val Symtable.SizeT.
Proof.
  apply (@p_unary_expression_sizeof_type spec_sema 50 sizeof_ex 0 _ 2);
    [left; reflexivity | vm_compute; reflexivity].
Defined.

(** * Further properties of the parser *)

Lemma check_pos_ge pos len : len <= pos -> check_pos pos len = Err "out of token index".
Proof. intro H. unfold check_pos. destruct (Nat.leb_spec len pos); [reflexivity | lia]. Qed.
(** X1. Each single-token rule (identifier, constant, enumeration constant, string, unary operator, assignment operator, storage class, struct-or-union, type qualifier, function specifier) returns the out-of-range error past the end of the tokens, and otherwise either consumes exactly one token or fails with an error; it never panics. *)
Theorem token_rules_one_token :
  Forall (fun r : Parser => forall toks pos,
    (length toks <= pos -> r toks pos = Err "out of token index") /\
    (pos < length toks ->
       (exists n, r toks pos = Ok (n, pos + 1)) \/ (exists m, r toks pos = Err m)))
    token_rules.
Proof.
  unfold token_rules.
  repeat (apply Forall_cons; [intros toks pos; split; intro H;
  match goal with
  | H : length _ <= _ |- _ => cbv beta delta [p_identifier p_constant p_enumeration_constant
      p_string p_unary_operator p_assignment_operator p_storage_class_specifier
      p_struct_or_union p_type_qualifier p_function_specifier];
      rewrite (check_pos_ge _ _ H); reflexivity
  | H : _ < length _ |- _ =>
      cbv beta delta [p_identifier p_constant p_enumeration_constant
      p_string p_unary_operator p_assignment_operator p_storage_class_specifier
      p_struct_or_union p_type_qualifier p_function_specifier];
      rewrite (check_pos_lt _ _ H); cbn [bind]; unfold at_index;
      destruct (nth_error toks pos) as [t|] eqn:E;
      [ destruct t; eauto
      | apply nth_error_None in E; lia ]
  end|]); apply Forall_nil.
Qed.

Section TranslationUnitProofs.
Context {SM : Sema}.
(** X3. p_translation_unit started at or past the end of the tokens returns the out-of-range error. *)
Theorem p_translation_unit_past_end f toks pos :
  length toks <= pos -> p_translation_unit (S f) toks pos = Err "out of token index".
Proof.
  intro H. cbn [p_translation_unit run body_of]. unfold p_translation_unit_body.
  rewrite (check_pos_ge _ _ H). reflexivity.
Qed.

Lemma translation_unit_loop_chain ext k toks cur pos n p :
  translation_unit_loop ext k toks cur pos = Ok (n, p) ->
  exists cs, entry n = entry cur /\ child n = (child cur ++ cs)%list /\
    type_exp n = Symtable.mkTypeExpression (Symtable.val (type_exp cur))
                   (Symtable.child (type_exp cur) ++ map type_exp cs)%list /\
    ext_chain ext toks pos cs p.
Proof.
  revert cur pos. induction k as [|k IH]; intros cur pos H; simpl in H; [discriminate|].
  destruct (Nat.leb_spec (length toks) pos).
  - injection H as <- <-. exists []. rewrite !app_nil_r.
    destruct cur as [e cs [v tc]]. repeat split; reflexivity.
  - destruct (ext toks pos) as [[c q]| | |] eqn:E; simpl in H; try discriminate.
    destruct (IH _ _ H) as (cs & He & Hc & Ht & Hch).
    exists (c :: cs). destruct cur as [e0 cs0 [v0 tc0]].
    cbn in He, Hc, Ht |- *. rewrite <- !app_assoc in Hc, Ht. cbn in Hc, Ht.
    repeat split; try assumption. exists q. split; assumption.
Qed.
(** X4. A successful p_translation_unit returns a TranslationUnit node with at least one child; its children are the results of consecutive successful p_external_declaration calls from the start position to the returned position, which is at or past the end of the tokens, and its type collects the children types. *)
Theorem p_translation_unit_externals f toks pos n p :
  p_translation_unit (S f) toks pos = Ok (n, p) ->
  entry n = Ast.TranslationUnit /\ child n <> [] /\
  type_exp n = Symtable.mkTypeExpression [] (map type_exp (child n)) /\
  ext_chain (p_external_declaration f) toks pos (child n) p /\ length toks <= p.
Proof.
  intro H. pose proof (p_translation_unit_end _ _ _ _ _ H) as Hend.
  cbn [p_translation_unit run body_of] in H. unfold p_translation_unit_body in H.
  destruct (Nat.leb_spec (length toks) pos) as [Hp|Hp].
  - rewrite (check_pos_ge _ _ Hp) in H. discriminate.
  - rewrite (check_pos_lt _ _ Hp) in H. cbn [bind] in H.
    destruct (translation_unit_loop_chain _ _ _ _ _ _ _ H) as (cs & He & Hc & Ht & Hch).
    cbn in He, Hc, Ht. rewrite Hc.
    repeat split; try assumption.
    destruct cs; [simpl in Hch; lia | discriminate].
Qed.
End TranslationUnitProofs.

Lemma check_tok_spec pos toks expect :
  check_tok pos toks expect =
    match nth_error toks pos with
    | None => Err "out of token index"
    | Some t => if tok_eqb t expect then Ok tt else Err "Expected: , found"
    end.
Proof.
  unfold check_tok, check_pos, at_index.
  destruct (Nat.leb_spec (length toks) pos) as [H|H].
  - apply nth_error_None in H. rewrite H. reflexivity.
  - cbn [bind]. destruct (nth_error toks pos) as [t|] eqn:E.
    + destruct (tok_eqb t expect); reflexivity.
    + apply nth_error_None in E. lia.
Qed.

Lemma skipn_nth {A} (l : list A) pos :
  skipn pos l = match nth_error l pos with
                | Some t => t :: skipn (S pos) l | None => [] end.
Proof.
  revert l. induction pos as [|pos IH]; intros [|a l]; simpl; try reflexivity.
  apply IH.
Qed.

Lemma qualifier_run_le l : qualifier_run l <= length l.
Proof. induction l as [|t l IH]; simpl; [lia|]. destruct (is_type_qualifier_tok t); lia. Qed.

Lemma comma_ids_le l : comma_ids l <= length l.
Proof.
  revert l. fix IH 1. intros [|t l]; [simpl; lia|].
  destruct t; simpl; try lia.
  destruct l as [|u l]; simpl; try lia.
  destruct u; simpl; try lia. specialize (IH l). lia.
Qed.

Lemma fold_attach_shape cs cur :
  entry (fold_left attach cs cur) = entry cur /\
  child (fold_left attach cs cur) = (child cur ++ cs)%list /\
  type_exp (fold_left attach cs cur) =
    Symtable.mkTypeExpression (Symtable.val (type_exp cur))
      (Symtable.child (type_exp cur) ++ map type_exp cs)%list.
Proof.
  revert cur. induction cs as [|c cs IH]; intro cur; simpl.
  - rewrite !app_nil_r. destruct cur as [e k [v t]]. repeat split; reflexivity.
  - destruct (IH (attach cur c)) as (H1 & H2 & H3). rewrite H1, H2, H3.
    destruct cur as [e k [v t]]. cbn. rewrite <- !app_assoc. repeat split; reflexivity.
Qed.

Lemma p_type_qualifier_ok toks pos t :
  nth_error toks pos = Some t -> is_type_qualifier_tok t = true ->
  exists c, p_type_qualifier toks pos = Ok (c, pos + 1).
Proof.
  intros E Hq. unfold p_type_qualifier.
  rewrite (check_pos_lt _ _ (nth_error_lt _ _ _ E)). cbn [bind]. unfold at_index.
  rewrite E. destruct t; try discriminate Hq; eexists; reflexivity.
Qed.

Lemma p_type_qualifier_err toks pos :
  match nth_error toks pos with
  | Some t => is_type_qualifier_tok t = false
  | None => True end ->
  exists m, p_type_qualifier toks pos = Err m.
Proof.
  intro Hq. unfold p_type_qualifier. destruct (nth_error toks pos) as [t|] eqn:E.
  - rewrite (check_pos_lt _ _ (nth_error_lt _ _ _ E)). cbn [bind]. unfold at_index.
    rewrite E. destruct t; try discriminate Hq; eexists; reflexivity.
  - apply nth_error_None in E. rewrite (check_pos_ge _ _ E). eexists; reflexivity.
Qed.

Lemma many_type_qualifier k toks cur inc pos :
  qualifier_run (skipn pos toks) < k ->
  exists cs, length cs = qualifier_run (skipn pos toks) /\
    many p_type_qualifier k toks cur inc pos =
      Ok (fold_left attach cs cur, inc + qualifier_run (skipn pos toks),
          pos + qualifier_run (skipn pos toks)).
Proof.
  revert cur inc pos. induction k as [|k IH]; intros cur inc pos Hk; [lia|].
  rewrite skipn_nth in Hk |- *. cbn [many].
  destruct (nth_error toks pos) as [t|] eqn:E.
  - cbn [qualifier_run] in Hk |- *. destruct (is_type_qualifier_tok t) eqn:Hq.
    + destruct (p_type_qualifier_ok _ _ _ E Hq) as [c Hc]. rewrite Hc. cbn [if_ok].
      replace (pos + 1) with (S pos) by lia.
      destruct (IH (attach cur c) (inc + 1) (S pos)) as (cs & Hl & Hm); [lia|].
      exists (c :: cs). split; [cbn [length]; lia|].
      unfold attach in Hm. rewrite Hm. f_equal. f_equal; [f_equal|]; lia.
    + destruct (p_type_qualifier_err toks pos) as [m Hm]; [rewrite E; exact Hq|].
      rewrite Hm. exists []. split; [reflexivity|]. cbn. f_equal. f_equal; [f_equal|]; lia.
  - destruct (p_type_qualifier_err toks pos) as [m Hm]; [rewrite E; exact I|].
    rewrite Hm. exists []. split; [reflexivity|]. cbn. f_equal. f_equal; [f_equal|]; lia.
Qed.
(** X5. p_type_qualifier_list consumes the whole maximal run of type qualifiers at the position, with one child per qualifier, and fails when the run is empty. *)
Theorem p_type_qualifier_list_maximal toks pos :
  (qualifier_run (skipn pos toks) = 0 /\
     exists m, p_type_qualifier_list toks pos = Err m) \/
  (0 < qualifier_run (skipn pos toks) /\
     exists n, p_type_qualifier_list toks pos =
                 Ok (n, pos + qualifier_run (skipn pos toks)) /\
       entry n = Ast.TypeQualifierList /\
       length (child n) = qualifier_run (skipn pos toks) /\
       type_exp n = Symtable.mkTypeExpression [] (map type_exp (child n))).
Proof.
  unfold p_type_qualifier_list. rewrite skipn_nth.
  destruct (nth_error toks pos) as [t|] eqn:E.
  - rewrite (check_pos_lt _ _ (nth_error_lt _ _ _ E)). cbn [bind qualifier_run].
    destruct (is_type_qualifier_tok t) eqn:Hq.
    + right. split; [lia|].
      destruct (p_type_qualifier_ok _ _ _ E Hq) as [c Hc]. rewrite Hc. cbn [bind].
      destruct (many_type_qualifier (S (length toks)) toks
                  (push_child (push_type_child (new Ast.TypeQualifierList) (type_exp c)) c)
                  0 (pos + 1)) as (cs & Hl & Hm).
      { pose proof (qualifier_run_le (skipn (pos + 1) toks)).
        rewrite length_skipn in H. lia. }
      rewrite Hm. cbn [bind].
      destruct (fold_attach_shape cs
                  (push_child (push_type_child (new Ast.TypeQualifierList) (type_exp c)) c))
        as (H1 & H2 & H3).
      replace (pos + 1) with (S pos) in Hl, Hm |- * by lia.
      eexists. split; [f_equal; f_equal; lia|].
      rewrite H1, H2, H3. split; [reflexivity|]. split; [rewrite length_app, Hl; reflexivity|]. reflexivity.
    + left. split; [reflexivity|].
      destruct (p_type_qualifier_err toks pos) as [m Hm]; [rewrite E; exact Hq|].
      rewrite Hm. eexists; reflexivity.
  - apply nth_error_None in E. rewrite (check_pos_ge _ _ E). left. split; [reflexivity|].
    eexists; reflexivity.
Qed.

Lemma tok_eqb_comma t : tok_eqb t Comma = true -> t = Comma.
Proof. destruct t; cbn; congruence. Qed.

Lemma p_identifier_at toks pos :
  match nth_error toks pos with
  | Some (IDENTIFIER s) =>
      p_identifier toks pos =
        Ok (set_type (new (Ast.Identifier s)) (new_val (Symtable.Identifier s)), pos + 1)
  | _ => exists m, p_identifier toks pos = Err m
  end.
Proof.
  unfold p_identifier. destruct (nth_error toks pos) as [t|] eqn:E.
  - rewrite (check_pos_lt _ _ (nth_error_lt _ _ _ E)). cbn [bind]. unfold at_index.
    rewrite E. destruct t; try reflexivity; eexists; reflexivity.
  - apply nth_error_None in E. rewrite (check_pos_ge _ _ E). eexists; reflexivity.
Qed.

Lemma comma_ids_at toks pos :
  comma_ids (skipn pos toks) =
    match nth_error toks pos, nth_error toks (S pos) with
    | Some Comma, Some (IDENTIFIER _) => S (comma_ids (skipn (S (S pos)) toks))
    | _, _ => 0
    end.
Proof.
  rewrite (skipn_nth toks pos). destruct (nth_error toks pos) as [t|]; [|reflexivity].
  rewrite (skipn_nth toks (S pos)). destruct (nth_error toks (S pos)) as [u|];
    destruct t; try reflexivity; destruct u; reflexivity.
Qed.

Lemma sep_identifiers k toks cur inc pos :
  comma_ids (skipn pos toks) < k ->
  exists cs, length cs = comma_ids (skipn pos toks) /\
    sep_items p_identifier k toks cur inc pos =
      Ok (fold_left attach cs cur, inc + comma_ids (skipn pos toks),
          pos + 2 * comma_ids (skipn pos toks)).
Proof.
  revert cur inc pos. induction k as [|k IH]; intros cur inc pos Hk; [lia|].
  rewrite comma_ids_at in Hk |- *. cbn [sep_items]. rewrite check_tok_spec.
  assert (Hz : forall m, Ok (cur, inc, m) = Ok (fold_left attach [] cur, inc + 0, m + 2 * 0))
    by (intro m; f_equal; f_equal; [f_equal|]; lia).
  destruct (nth_error toks pos) as [t|] eqn:E.
  2: { exists []. split; [reflexivity|]. apply Hz. }
  destruct (tok_eqb t Comma) eqn:Ht.
  2: { cbn [if_ok]. exists []. split; [destruct t; try reflexivity; discriminate|].
       destruct t; try discriminate; apply Hz. }
  apply tok_eqb_comma in Ht. subst t. cbn [if_ok].
  pose proof (p_identifier_at toks (pos + 1)) as Hi.
  replace (pos + 1) with (S pos) in Hi |- * by lia.
  destruct (nth_error toks (S pos)) as [u|] eqn:E2.
  2: { destruct Hi as [m Hm]. rewrite Hm. cbn [if_ok]. exists []. split; [reflexivity|].
       replace (S pos - 1) with pos by lia. apply Hz. }
  destruct u; try (destruct Hi as [m Hm]; rewrite Hm; cbn [if_ok]; exists [];
    split; [reflexivity|]; replace (S pos - 1) with pos by lia; apply Hz).
  rewrite Hi. cbn [if_ok].
  destruct (IH (attach cur (set_type (new (Ast.Identifier name))
                  (new_val (Symtable.Identifier name)))) (inc + 1) (S pos + 1))
    as (cs & Hl & Hm).
  { replace (S pos + 1) with (S (S pos)) by lia. lia. }
  exists (set_type (new (Ast.Identifier name)) (new_val (Symtable.Identifier name)) :: cs).
  replace (S pos + 1) with (S (S pos)) in Hl, Hm |- * by lia.
  split; [cbn [length]; lia|].
  unfold attach in Hm. rewrite Hm. f_equal. f_equal; [f_equal|]; lia.
Qed.
(** X6. p_identifier_list: past the end it returns the out-of-range error; on an identifier it consumes it and every following comma-identifier pair, with one child per identifier; on any other token it fails. *)
Theorem p_identifier_list_maximal toks pos :
  match nth_error toks pos with
  | None => p_identifier_list toks pos = Err "out of token index"
  | Some (IDENTIFIER _) =>
      exists n, p_identifier_list toks pos =
                  Ok (n, pos + 1 + 2 * comma_ids (skipn (pos + 1) toks)) /\
        entry n = Ast.IdentifierList /\
        length (child n) = S (comma_ids (skipn (pos + 1) toks))
  | Some _ => exists m, p_identifier_list toks pos = Err m
  end.
Proof.
  unfold p_identifier_list. pose proof (p_identifier_at toks pos) as Hi.
  destruct (nth_error toks pos) as [t|] eqn:E.
  2: { apply nth_error_None in E. rewrite (check_pos_ge _ _ E). reflexivity. }
  rewrite (check_pos_lt _ _ (nth_error_lt _ _ _ E)). cbn [bind].
  destruct t; try (destruct Hi as [m Hm]; rewrite Hm; eexists; reflexivity).
  rewrite Hi. cbn [bind].
  set (c := set_type (new (Ast.Identifier name)) (new_val (Symtable.Identifier name))).
  destruct (sep_identifiers (S (length toks)) toks
              (push_child (push_type_child (new Ast.IdentifierList) (type_exp c)) c)
              0 (pos + 1)) as (cs & Hl & Hm).
  { pose proof (comma_ids_le (skipn (pos + 1) toks)).
    rewrite length_skipn in H. lia. }
  rewrite Hm. cbn [bind].
  destruct (fold_attach_shape cs
              (push_child (push_type_child (new Ast.IdentifierList) (type_exp c)) c))
    as (H1 & H2 & H3).
  eexists. split; [reflexivity|].
  unfold keep_single. destruct (Nat.eqb _ 0); cbn [entry child set_type];
    rewrite ?H1, ?H2; (split; [reflexivity|]); rewrite length_app, Hl; reflexivity.
Qed.

Section NoStart.
Context {SM : Sema}.
Variables (toks : list TokType) (pos : nat) (t : TokType).
Hypothesis H : nth_error toks pos = Some t.
Hypothesis Hs : starts_expression t = false.
Lemma no_start_leaf :
  (exists m, p_identifier toks pos = Err m) /\
  (exists m, p_constant toks pos = Err m) /\
  (exists m, p_string toks pos = Err m) /\
  (exists m, p_unary_operator toks pos = Err m) /\
  check_tok pos toks LParen = Err "Expected: , found" /\
  tok_eqb t GENERIC = false.
Proof.
  unfold p_identifier, p_constant, p_string, p_unary_operator.
  rewrite check_tok_spec, H, (check_pos_lt _ _ (nth_error_lt _ _ _ H)).
  cbn [bind]. unfold at_index. rewrite H.
  destruct t; try discriminate Hs; cbn; repeat split; eexists; reflexivity.
Qed.

Lemma generic_selection_no_start f r : run f NT_generic_selection toks pos <> Ok r.
Proof.
  intro E. destruct f as [|f]; [discriminate|].
  cbn [run body_of] in E. unfold p_generic_selection_body in E.
  rewrite (check_pos_lt _ _ (nth_error_lt _ _ _ H)) in E. cbn [bind] in E.
  unfold at_index in E. rewrite H in E.
  destruct no_start_leaf as (_ & _ & _ & _ & _ & Hg). rewrite Hg in E. discriminate.
Qed.

Lemma primary_expression_no_start f r : run f NT_primary_expression toks pos <> Ok r.
Proof.
  intro E. destruct f as [|f]; [discriminate|].
  cbn [run body_of] in E. unfold p_primary_expression_body in E.
  rewrite (check_pos_lt _ _ (nth_error_lt _ _ _ H)) in E. cbn [bind] in E.
  destruct no_start_leaf as ([m1 H1] & [m2 H2] & [m3 H3] & _ & H5 & _).
  rewrite H1, H2, H3, H5 in E. cbn [if_ok] in E.
  destruct (run f NT_generic_selection toks pos) eqn:G; try discriminate.
  exact (generic_selection_no_start _ _ G).
Qed.

Lemma postfix_expression_no_start f r : run f NT_postfix_expression toks pos <> Ok r.
Proof.
  intro E. destruct f as [|f]; [discriminate|].
  cbn [run body_of] in E. unfold p_postfix_expression_body in E.
  rewrite (check_pos_lt _ _ (nth_error_lt _ _ _ H)) in E. cbn [bind] in E.
  destruct no_start_leaf as (_ & _ & _ & _ & H5 & _).
  destruct (run f NT_primary_expression toks pos) eqn:G; cbn [if_ok] in E;
    try discriminate.
  - exact (primary_expression_no_start _ _ G).
  - rewrite H5 in E. discriminate.
Qed.

Lemma unary_expression_no_start f r : run f NT_unary_expression toks pos <> Ok r.
Proof.
  intro E. destruct f as [|f]; [discriminate|].
  cbn [run body_of] in E. unfold p_unary_expression_body in E.
  rewrite (check_pos_lt _ _ (nth_error_lt _ _ _ H)) in E. cbn [bind] in E.
  destruct no_start_leaf as (_ & _ & _ & [m4 H4] & _ & _).
  unfold at_index at 1 in E. rewrite H in E.
  pose proof (postfix_expression_no_start f) as Hp.
  destruct (run f NT_postfix_expression toks pos) as [rp|mp| |] eqn:G;
    [exfalso; exact (Hp _ eq_refl)|..];
  destruct t; try discriminate Hs; cbn beta iota zeta in E; rewrite H4 in E;
    cbn [if_ok] in E; discriminate.
Qed.

Lemma cast_expression_no_start f r : run f NT_cast_expression toks pos <> Ok r.
Proof.
  intro E. destruct f as [|f]; [discriminate|].
  cbn [run body_of] in E. unfold p_cast_expression_body in E.
  rewrite (check_pos_lt _ _ (nth_error_lt _ _ _ H)) in E. cbn [bind] in E.
  destruct no_start_leaf as (_ & _ & _ & _ & H5 & _).
  destruct (run f NT_unary_expression toks pos) eqn:G; cbn [if_ok] in E;
    try discriminate.
  - exact (unary_expression_no_start _ _ G).
  - rewrite H5 in E. discriminate.
Qed.

Lemma cascade_level_no_start kind is_op (next : Parser) r :
  (forall r', next toks pos <> Ok r') -> cascade_level kind is_op next toks pos <> Ok r.
Proof.
  intros Hn E. unfold cascade_level in E.
  rewrite (check_pos_lt _ _ (nth_error_lt _ _ _ H)) in E. cbn [bind] in E.
  destruct (next toks pos) as [r'| | |] eqn:G; try discriminate.
  exact (Hn _ eq_refl).
Qed.

Ltac level_no_start prev :=
  let f := fresh "f" in let r := fresh "r" in
  intros f r; destruct f as [|f]; [discriminate|];
  cbn [run body_of p_multiplicative_expression_body p_additive_expression_body
    p_shift_expression_body p_relational_expression_body p_equality_expression_body
    p_and_expression_body p_exclusive_or_expression_body p_inclusive_or_expression_body
    p_logical_and_expression_body p_logical_or_expression_body];
  apply cascade_level_no_start; intro; apply prev.

Lemma multiplicative_no_start f r : run f NT_multiplicative_expression toks pos <> Ok r.
Proof. revert f r. level_no_start cast_expression_no_start. Qed.

Lemma additive_no_start f r : run f NT_additive_expression toks pos <> Ok r.
Proof. revert f r. level_no_start multiplicative_no_start. Qed.

Lemma shift_no_start f r : run f NT_shift_expression toks pos <> Ok r.
Proof. revert f r. level_no_start additive_no_start. Qed.

Lemma relational_no_start f r : run f NT_relational_expression toks pos <> Ok r.
Proof. revert f r. level_no_start shift_no_start. Qed.

Lemma equality_no_start f r : run f NT_equality_expression toks pos <> Ok r.
Proof. revert f r. level_no_start relational_no_start. Qed.

Lemma and_no_start f r : run f NT_and_expression toks pos <> Ok r.
Proof. revert f r. level_no_start equality_no_start. Qed.

Lemma exclusive_or_no_start f r : run f NT_exclusive_or_expression toks pos <> Ok r.
Proof. revert f r. level_no_start and_no_start. Qed.

Lemma inclusive_or_no_start f r : run f NT_inclusive_or_expression toks pos <> Ok r.
Proof. revert f r. level_no_start exclusive_or_no_start. Qed.

Lemma logical_and_no_start f r : run f NT_logical_and_expression toks pos <> Ok r.
Proof. revert f r. level_no_start inclusive_or_no_start. Qed.

Lemma logical_or_no_start f r : run f NT_logical_or_expression toks pos <> Ok r.
Proof. revert f r. level_no_start logical_and_no_start. Qed.

Lemma conditional_no_start f r : run f NT_conditional_expression toks pos <> Ok r.
Proof.
  intro E. destruct f as [|f]; [discriminate|].
  cbn [run body_of] in E. unfold p_conditional_expression_body in E.
  rewrite (check_pos_lt _ _ (nth_error_lt _ _ _ H)) in E. cbn [bind] in E.
  destruct (run f NT_logical_or_expression toks pos) eqn:G; cbn [if_ok] in E;
    try discriminate.
  exact (logical_or_no_start _ _ G).
Qed.

Lemma assignment_no_start f r : run f NT_assignment_expression toks pos <> Ok r.
Proof.
  intro E. destruct f as [|f]; [discriminate|].
  cbn [run body_of] in E. unfold p_assignment_expression_body in E.
  rewrite (check_pos_lt _ _ (nth_error_lt _ _ _ H)) in E. cbn [bind] in E.
  destruct (run f NT_unary_expression toks pos) eqn:G; cbn [if_ok] in E;
    try discriminate; [exact (unary_expression_no_start _ _ G)|];
  destruct (run f NT_conditional_expression toks pos) eqn:G'; cbn [bind] in E;
    try discriminate; exact (conditional_no_start _ _ G').
Qed.

Lemma expression_no_start f r : run f NT_expression toks pos <> Ok r.
Proof.
  intro E. destruct f as [|f]; [discriminate|].
  cbn [run body_of] in E. unfold p_expression_body in E.
  rewrite (check_pos_lt _ _ (nth_error_lt _ _ _ H)) in E. cbn [bind] in E.
  destruct (run f NT_assignment_expression toks pos) eqn:G; cbn [bind] in E;
    try discriminate.
  exact (assignment_no_start _ _ G).
Qed.

Lemma constant_expression_no_start f r : run f NT_constant_expression toks pos <> Ok r.
Proof.
  intro E. destruct f as [|f]; [discriminate|].
  cbn [run body_of] in E. unfold p_constant_expression_body in E.
  rewrite (check_pos_lt _ _ (nth_error_lt _ _ _ H)) in E. cbn [bind] in E.
  destruct (run f NT_conditional_expression toks pos) eqn:G; cbn [bind] in E;
    try discriminate.
  exact (conditional_no_start _ _ G).
Qed.
End NoStart.

Section ExpressionStartProofs.
Context {SM : Sema}.
(** X7. p_expression, p_assignment_expression and p_constant_expression never succeed at a token that cannot start a primary or unary expression. *)
Theorem expression_never_starts_with f toks pos t r :
  nth_error toks pos = Some t -> starts_expression t = false ->
  p_expression f toks pos <> Ok r /\ p_assignment_expression f toks pos <> Ok r /\
  p_constant_expression f toks pos <> Ok r.
Proof.
  intros H Hs. split; [|split].
  - exact (expression_no_start _ _ _ H Hs _ _).
  - exact (assignment_no_start _ _ _ H Hs _ _).
  - exact (constant_expression_no_start _ _ _ H Hs _ _).
Qed.
End ExpressionStartProofs.

Section ExpressionProofs.
Context {SM : Sema}.
Lemma assignment_ok_pos f toks pos r :
  run f NT_assignment_expression toks pos = Ok r -> pos < length toks.
Proof.
  intro E. destruct f as [|f]; [discriminate|].
  cbn [run body_of] in E. unfold p_assignment_expression_body, check_pos in E.
  destruct (Nat.leb_spec (length toks) pos); [discriminate | assumption].
Qed.
(** X8. p_expression consumes a comma that is not followed by an assignment expression: with one operand followed by such a comma it returns that operand at the position after the comma. *)
Theorem p_expression_trailing_comma f toks pos a q m :
  p_assignment_expression f toks pos = Ok (a, q) ->
  nth_error toks q = Some Comma ->
  p_assignment_expression f toks (q + 1) = Err m ->
  p_expression (S f) toks pos =
    Ok (set_type (attach (new Ast.Expression) a) (type_exp a), q + 1).
Proof.
  intros Ha Hc Hm.
  pose proof (assignment_ok_pos _ _ _ _ Ha) as Hp.
  change (p_expression (S f) toks pos) with (p_expression_body (run f) f toks pos).
  unfold p_expression_body. rewrite (check_pos_lt _ _ Hp). cbn [bind].
  change (run f NT_assignment_expression) with (p_assignment_expression f).
  rewrite Ha. cbn [bind].
  destruct f as [|f]; [discriminate|].
  cbv beta iota fix. rewrite check_tok_spec, Hc. cbn [tok_eqb tok_tag Nat.eqb if_ok].
  change (run (S f) NT_assignment_expression) with (p_assignment_expression (S f)).
  rewrite Hm. reflexivity.
Qed.

Lemma expression_loop_type (call : NT -> Parser) toks pre_type k cur inc pos n p :
  entry cur = Ast.Expression ->
  (exists c cs, child cur = c :: cs /\
     (inc = 0 -> cs = [] /\ pre_type = type_exp c) /\
     (inc <> 0 -> type_exp cur = type_exp (last (c :: cs) c))) ->
  (fix loop (k : nat) (cur_node : ParseNode) (inc pos : nat) :=
     match k with O => OutOfFuel | S k =>
     if_ok (check_tok pos toks Comma)
       (fun _ =>
          let pos := pos + 1 in
          if_ok (call NT_assignment_expression toks pos)
            (fun '(child_node, tmp_pos) =>
               loop k (push_child (set_type cur_node (type_exp child_node))
                         child_node) (inc + 1) tmp_pos)
            (fun _ => Ok (keep_single cur_node pre_type inc, pos)))
       (fun _ => Ok (keep_single cur_node pre_type inc, pos))
     end) k cur inc pos = Ok (n, p) ->
  entry n = Ast.Expression /\
  exists c cs, child n = c :: cs /\ type_exp n = type_exp (last (c :: cs) c).
Proof.
  revert cur inc pos. induction k as [|k IH]; intros cur inc pos He Hi E; [discriminate|].
  assert (Hk : entry (keep_single cur pre_type inc) = Ast.Expression /\
     exists c cs, child (keep_single cur pre_type inc) = c :: cs /\
       type_exp (keep_single cur pre_type inc) = type_exp (last (c :: cs) c)).
  { destruct Hi as (c & cs & Hc & H0 & H1). unfold keep_single.
    destruct (Nat.eqb_spec inc 0) as [Z|Z].
    - destruct (H0 Z) as [-> ->]. split; [exact He|]. exists c, []. split; [exact Hc|reflexivity].
    - split; [exact He|]. exists c, cs. split; [exact Hc|exact (H1 Z)]. }
  cbv beta iota fix in E. fold (@if_ok unit (ParseNode * nat)) in E.
  destruct (check_tok pos toks Comma) as [[]| | |]; cbn [if_ok] in E; try discriminate.
  - destruct (call NT_assignment_expression toks (pos + 1)) as [[d q]| | |];
      cbn [if_ok] in E; try discriminate.
    + refine (IH _ _ _ _ _ E); [exact He|].
      destruct Hi as (c & cs & Hc & _ & _). exists c, (cs ++ [d])%list.
      cbn [child push_child set_type type_exp]. rewrite Hc.
      split; [reflexivity|]. split; [intro; lia|]. intros _.
      rewrite app_comm_cons, last_last. reflexivity.
    + injection E as <- <-. exact Hk.
  - injection E as <- <-. exact Hk.
Qed.
(** X9. A successful p_expression returns an Expression node with at least one child, whose type is the type of its last child. *)
Theorem p_expression_type_of_last f toks pos n p :
  p_expression f toks pos = Ok (n, p) ->
  entry n = Ast.Expression /\
  exists c cs, child n = c :: cs /\ type_exp n = type_exp (last (c :: cs) c).
Proof.
  intro E. destruct f as [|f]; [discriminate|].
  change (p_expression (S f) toks pos) with (p_expression_body (run f) f toks pos) in E.
  unfold p_expression_body in E.
  destruct (check_pos pos (length toks)) as [[]| | |]; cbn [bind] in E; try discriminate.
  destruct (run f NT_assignment_expression toks pos) as [[a q]| | |];
    cbn [bind] in E; try discriminate.
  refine (expression_loop_type _ _ _ _ _ _ _ _ _ _ _ E); [reflexivity|].
  exists a, []. split; [reflexivity|]. split; [intros _; split; reflexivity|].
  intro; lia.
Qed.
End ExpressionProofs.

Section StatementProofs.
Context {SM : Sema}.
Lemma tok_eqb_true a b : tok_eqb a b = true ->
  match b with
  | IDENTIFIER _ | IConstant _ | FConstant _ | EnumerationConstant _
  | StringLiteral _ _ => True
  | _ => a = b end.
Proof. destruct a, b; cbn; try discriminate; try reflexivity; trivial. Qed.
(** X10. For return followed by an expression, p_jump_statement returns a node typed by that expression at one past its end, without checking the token there. *)
Theorem p_jump_statement_return_skips f toks pos e q :
  nth_error toks pos = Some RETURN ->
  p_expression f toks (pos + 1) = Ok (e, q) ->
  p_jump_statement (S f) toks pos =
    Ok (push_child (set_type (new (Ast.JumpStatement "return" None)) (type_exp e)) e,
        q + 1).
Proof.
  intros H He.
  change (p_jump_statement (S f) toks pos) with (p_jump_statement_body (run f) f toks pos).
  unfold p_jump_statement_body.
  rewrite (check_pos_lt _ _ (nth_error_lt _ _ _ H)). cbn [bind]. unfold at_index at 1.
  rewrite H. cbv beta iota zeta. rewrite check_tok_spec.
  assert (Hb : if_ok (Err "x" : Outcome unit) (fun _ => Ok (set_type (new (Ast.JumpStatement "return" None)) none_expression, pos + 1 + 1))
     (fun _ => let? '(child_node, pos0) := run f NT_expression toks (pos + 1) in
        Ok (push_child (set_type (new (Ast.JumpStatement "return" None)) (type_exp child_node)) child_node, pos0 + 1)) =
     Ok (push_child (set_type (new (Ast.JumpStatement "return" None)) (type_exp e)) e, q + 1)).
  { cbn [if_ok]. change (run f NT_expression) with (p_expression f). rewrite He. reflexivity. }
  destruct (nth_error toks (pos + 1)) as [u|] eqn:Eu; [|exact Hb].
  destruct (tok_eqb u Semicolon) eqn:Hu; [|exact Hb].
  apply tok_eqb_true in Hu. subst u. exfalso.
  exact (expression_no_start _ _ _ Eu eq_refl _ _ He).
Qed.
(** X11. For break and continue, p_jump_statement returns a node without label past the semicolon that follows, and an error when another token or no token follows. *)
Theorem p_jump_statement_break_continue f toks pos kw name :
  (kw = BREAK /\ name = "break") \/ (kw = CONTINUE /\ name = "continue") ->
  nth_error toks pos = Some kw ->
  p_jump_statement (S f) toks pos =
    match nth_error toks (pos + 1) with
    | Some Semicolon =>
        Ok (set_type (new (Ast.JumpStatement name None)) none_expression, pos + 1 + 1)
    | Some _ => Err "Expected: , found"
    | None => Err "out of token index"
    end.
Proof.
  intros Hk H.
  change (p_jump_statement (S f) toks pos) with (p_jump_statement_body (run f) f toks pos).
  unfold p_jump_statement_body.
  rewrite (check_pos_lt _ _ (nth_error_lt _ _ _ H)). cbn [bind]. unfold at_index at 1.
  rewrite H.
  destruct Hk as [[-> ->]|[-> ->]]; cbv beta iota zeta; rewrite check_tok_spec;
    (destruct (nth_error toks (pos + 1)) as [u|]; [destruct u; reflexivity|reflexivity]).
Qed.

Lemma declarator_colon f toks pos r :
  nth_error toks pos = Some Colon -> run f NT_declarator toks pos <> Ok r.
Proof.
  intros H E. destruct f as [|f]; [discriminate|].
  cbn [run body_of] in E. unfold p_declarator_body in E.
  rewrite (check_pos_lt _ _ (nth_error_lt _ _ _ H)) in E. cbn [bind] in E.
  destruct f as [|f]; [discriminate|].
  cbn [run body_of] in E. unfold p_direct_declarator_body, p_pointer_body in E.
  rewrite (check_pos_lt _ _ (nth_error_lt _ _ _ H)) in E. cbn [bind] in E.
  pose proof (p_identifier_at toks pos) as Hi. rewrite H in Hi. destruct Hi as [m Hm].
  rewrite Hm, !check_tok_spec, H in E. discriminate.
Qed.
(** X12. A struct declarator with a name followed by a colon (a named bit-field) never parses. *)
Theorem p_struct_declarator_named_bitfield f toks pos d q r :
  p_declarator f toks pos = Ok (d, q) ->
  nth_error toks q = Some Colon ->
  p_struct_declarator (S f) toks pos <> Ok r.
Proof.
  intros Hd Hq E.
  change (p_struct_declarator (S f) toks pos) with
    (p_struct_declarator_body (run f) f toks pos) in E.
  unfold p_struct_declarator_body in E.
  destruct (check_pos pos (length toks)) as [[]| | |]; cbn [bind] in E; try discriminate.
  rewrite check_tok_spec in E.
  destruct (nth_error toks pos) as [t|] eqn:Ht.
  - destruct (tok_eqb t Colon) eqn:Hc.
    + apply tok_eqb_true in Hc. subst t. exact (declarator_colon _ _ _ _ Ht Hd).
    + cbn [if_ok] in E. change (run f NT_declarator) with (p_declarator f) in E.
      rewrite Hd in E. cbn [bind] in E. rewrite check_tok_spec, Hq in E. cbn [if_ok tok_eqb tok_tag Nat.eqb] in E.
      destruct (run f NT_constant_expression toks q) as [r'| | |] eqn:G; cbn [bind] in E;
        try discriminate.
      exact (constant_expression_no_start _ _ _ Hq eq_refl _ _ G).
  - cbn [if_ok] in E. change (run f NT_declarator) with (p_declarator f) in E.
    rewrite Hd in E. cbn [bind] in E. rewrite check_tok_spec, Hq in E. cbn [if_ok tok_eqb tok_tag Nat.eqb] in E.
    destruct (run f NT_constant_expression toks q) as [r'| | |] eqn:G; cbn [bind] in E;
      try discriminate.
    exact (constant_expression_no_start _ _ _ Hq eq_refl _ _ G).
Qed.

Lemma enumerator_list_lbrace f toks pos r :
  nth_error toks pos = Some LBrace -> run f NT_enumerator_list toks pos <> Ok r.
Proof.
  intros H E. destruct f as [|f]; [discriminate|].
  cbn [run body_of] in E. unfold p_enumerator_list_body in E.
  rewrite (check_pos_lt _ _ (nth_error_lt _ _ _ H)) in E. cbn [bind] in E.
  destruct f as [|f]; [discriminate|].
  cbn [run body_of] in E. unfold p_enumerator_body, p_enumeration_constant in E.
  rewrite (check_pos_lt _ _ (nth_error_lt _ _ _ H)) in E. cbn [bind] in E.
  unfold at_index in E. rewrite H in E. discriminate.
Qed.
(** X13. p_enum_specifier never succeeds. *)
Theorem p_enum_specifier_never_ok f toks pos r :
  p_enum_specifier f toks pos <> Ok r.
Proof.
  intro E. destruct f as [|f]; [discriminate|].
  change (p_enum_specifier (S f) toks pos) with
    (p_enum_specifier_body (run f) f toks pos) in E.
  unfold p_enum_specifier_body in E.
  destruct (check_pos pos (length toks)) as [[]| | |]; cbn [bind] in E; try discriminate.
  destruct (check_tok pos toks ENUM) as [[]| | |]; cbn [bind] in E; try discriminate.
  rewrite check_tok_spec in E.
  destruct (nth_error toks (pos + 1)) as [t|] eqn:Ht; cbn [if_ok] in E.
  2: { unfold at_index in E. rewrite Ht in E. discriminate. }
  destruct (tok_eqb t LBrace) eqn:Hb; cbn [if_ok] in E.
  - apply tok_eqb_true in Hb. subst t.
    destruct (run f NT_enumerator_list toks (pos + 1)) as [r'| | |] eqn:G;
      cbn [bind] in E; try discriminate.
    exact (enumerator_list_lbrace _ _ _ _ Ht G).
  - unfold at_index at 1 in E. rewrite Ht in E.
    destruct t; try discriminate. cbv beta iota zeta in E.
    rewrite check_tok_spec in E.
    destruct (nth_error toks (pos + 1 + 1)) as [u|] eqn:Hu; cbn [if_ok] in E.
    2: { unfold at_index in E. rewrite Hu in E. discriminate. }
    destruct (tok_eqb u LBrace) eqn:Hb'; cbn [if_ok] in E.
    + apply tok_eqb_true in Hb'. subst u.
      destruct (run f NT_enumerator_list toks (pos + 1 + 1)) as [r'| | |] eqn:G;
        cbn [bind] in E; try discriminate.
      exact (enumerator_list_lbrace _ _ _ _ Hu G).
    + unfold at_index in E. rewrite Hu in E. discriminate.
Qed.
End StatementProofs.

Section DeclarationProofs.
Context {SM : Sema}.
(** X14. An anonymous struct or union body is rejected when it is closed by a right brace, and accepted, past the token, when it is closed by a right parenthesis. *)
Theorem p_struct_or_union_specifier_anonymous f toks pos su d q :
  nth_error toks pos = Some su -> (su = STRUCT \/ su = UNION) ->
  nth_error toks (pos + 1) = Some LBrace ->
  p_struct_declaration_list f toks (pos + 1 + 1) = Ok (d, q) ->
  (nth_error toks q = Some RBrace ->
     p_struct_or_union_specifier (S f) toks pos = Err "Expected: , found") /\
  (nth_error toks q = Some RParen ->
     exists n, p_struct_or_union_specifier (S f) toks pos = Ok (n, q + 1)).
Proof.
  intros H Hsu Hb Hd.
  pose proof (p_identifier_at toks (pos + 1)) as Hi. rewrite Hb in Hi.
  destruct Hi as [m Hm].
  split; intro Hq;
  change (p_struct_or_union_specifier (S f) toks pos) with
    (p_struct_or_union_specifier_body (run f) f toks pos);
  unfold p_struct_or_union_specifier_body, p_struct_or_union;
  rewrite (check_pos_lt _ _ (nth_error_lt _ _ _ H)); cbn [bind]; unfold at_index at 1;
  rewrite H;
  destruct Hsu as [->| ->]; cbv beta iota; cbn [bind]; rewrite Hm; cbn [if_ok];
    rewrite check_tok_spec, Hb; cbn [tok_eqb tok_tag Nat.eqb bind];
    change (run f NT_struct_declaration_list) with (p_struct_declaration_list f);
    rewrite Hd; cbn [bind]; rewrite check_tok_spec, Hq;
    [reflexivity | reflexivity | eexists; reflexivity | eexists; reflexivity].
Qed.
(** X15. A braced initializer list with a trailing comma returns the position of the closing brace, which is not consumed. *)
Theorem p_initializer_trailing_comma f toks pos m l q :
  nth_error toks pos = Some LBrace ->
  p_assignment_expression f toks pos = Err m ->
  p_initializer_list f toks (pos + 1) = Ok (l, q) ->
  nth_error toks q = Some Comma -> nth_error toks (q + 1) = Some RBrace ->
  p_initializer (S f) toks pos =
    Ok (push_child (set_type (new Ast.Initializer) (type_exp l)) l, q + 1).
Proof.
  intros H Ha Hl Hc Hr.
  change (p_initializer (S f) toks pos) with (p_initializer_body (run f) f toks pos).
  unfold p_initializer_body.
  rewrite (check_pos_lt _ _ (nth_error_lt _ _ _ H)). cbn [bind].
  change (run f NT_assignment_expression) with (p_assignment_expression f).
  rewrite Ha. cbn [if_ok]. rewrite check_tok_spec, H. cbn [tok_eqb tok_tag Nat.eqb bind].
  change (run f NT_initializer_list) with (p_initializer_list f).
  rewrite Hl. cbn [bind]. rewrite !check_tok_spec, Hc. cbn [tok_eqb tok_tag Nat.eqb if_ok].
  rewrite Hr. reflexivity.
Qed.
(** X16. A parameter list followed by a comma and an ellipsis gives a variadic ParameterTypeList whose returned position is that of the ellipsis, which is not consumed. *)
Theorem p_parameter_type_list_ellipsis f toks pos l q :
  p_parameter_list f toks pos = Ok (l, q) ->
  nth_error toks q = Some Comma -> nth_error toks (q + 1) = Some ELLIPSIS ->
  p_parameter_type_list (S f) toks pos =
    Ok (Ast.mkParseNode (Ast.ParameterTypeList true) [l]
          (Symtable.push_val (type_exp l) Symtable.VaList), q + 1).
Proof.
  intros Hl Hc He.
  assert (Hp : pos < length toks).
  { destruct f as [|f]; [discriminate|].
    cbn [p_parameter_list run body_of] in Hl. unfold p_parameter_list_body, check_pos in Hl.
    destruct (Nat.leb_spec (length toks) pos); [discriminate|assumption]. }
  change (p_parameter_type_list (S f) toks pos) with
    (p_parameter_type_list_body (run f) f toks pos).
  unfold p_parameter_type_list_body.
  rewrite (check_pos_lt _ _ Hp). cbn [bind].
  change (run f NT_parameter_list) with (p_parameter_list f).
  rewrite Hl. cbn [bind]. rewrite !check_tok_spec, Hc. cbn [tok_eqb tok_tag Nat.eqb if_ok].
  rewrite He. reflexivity.
Qed.
(** X17. A parenthesised declarator is accepted without its closing parenthesis: the returned position is the token after the inner declarator. *)
Theorem p_direct_declarator_paren_unclosed f toks pos d q :
  nth_error toks pos = Some LParen ->
  p_declarator (S (S f)) toks (pos + 1) = Ok (d, q) ->
  nth_error toks q = Some Semicolon ->
  p_direct_declarator (S (S (S f))) toks pos =
    Ok (set_type (push_child (new Ast.DirectDeclarator) d) (type_exp d), q).
Proof.
  intros H Hd Hq.
  change (p_direct_declarator (S (S (S f))) toks pos) with
    (p_direct_declarator_body (run (S (S f))) (S (S f)) toks pos).
  unfold p_direct_declarator_body.
  rewrite (check_pos_lt _ _ (nth_error_lt _ _ _ H)). cbn [bind].
  pose proof (p_identifier_at toks pos) as Hi. rewrite H in Hi. destruct Hi as [m Hm].
  rewrite Hm. cbn [if_ok]. rewrite check_tok_spec, H. cbn [tok_eqb tok_tag Nat.eqb if_ok].
  change (run (S (S f)) NT_declarator) with (p_declarator (S (S f))).
  rewrite Hd. cbn [bind].
  change (run (S (S f)) NT_direct_declarator_post_list toks q) with
    (p_direct_declarator_post_list_body (run (S f)) (S f) toks q).
  unfold p_direct_declarator_post_list_body.
  rewrite (check_pos_lt _ _ (nth_error_lt _ _ _ Hq)). cbn [bind].
  change (run (S f) NT_direct_declarator_post toks q) with
    (p_direct_declarator_post_body (run f) f toks q).
  unfold p_direct_declarator_post_body.
  rewrite (check_pos_lt _ _ (nth_error_lt _ _ _ Hq)). cbn [bind]. unfold at_index.
  rewrite Hq. reflexivity.
Qed.
End DeclarationProofs.

Lemma p_translation_unit_past_end_witness :
  @p_translation_unit spec_sema 41 [INT] 1 = Err "out of token index".
Proof. apply (@p_translation_unit_past_end spec_sema 40 [INT] 1). cbn [length]; lia. Defined.

Lemma p_translation_unit_externals_witness :
  let n := ok_node (@p_translation_unit spec_sema 41 decl_ok 0) in
  entry n = Ast.TranslationUnit /\ child n <> [] /\
  type_exp n = Symtable.mkTypeExpression [] (map type_exp (child n)) /\
  ext_chain (@p_external_declaration spec_sema 40) decl_ok 0 (child n) 3 /\
  length decl_ok <= 3.
Proof.
  apply (@p_translation_unit_externals spec_sema 40 decl_ok 0). vm_compute. reflexivity.
Defined.

Lemma expression_never_starts_with_witness :
  @p_expression spec_sema 40 [Semicolon] 0 <> Ok (new Ast.Expression, 1) /\
  @p_assignment_expression spec_sema 40 [Semicolon] 0 <> Ok (new Ast.Expression, 1) /\
  @p_constant_expression spec_sema 40 [Semicolon] 0 <> Ok (new Ast.Expression, 1).
Proof.
  apply (@expression_never_starts_with spec_sema 40 [Semicolon] 0 Semicolon); reflexivity.
Defined.

Lemma p_expression_trailing_comma_witness :
  let a := ok_node (@p_assignment_expression spec_sema 40 trailing_comma_ex 0) in
  @p_expression spec_sema 41 trailing_comma_ex 0 =
    Ok (set_type (attach (new Ast.Expression) a) (type_exp a), 1 + 1).
Proof.
  apply (@p_expression_trailing_comma spec_sema 40 trailing_comma_ex 0 _ 1 "Error parse logical_or_expressiong");
    vm_compute; reflexivity.
Defined.

Lemma p_expression_type_of_last_witness :
  let n := ok_node (@p_expression spec_sema 40 comma_pair_ex 0) in
  entry n = Ast.Expression /\
  exists c cs, child n = c :: cs /\ type_exp n = type_exp (last (c :: cs) c).
Proof.
  apply (@p_expression_type_of_last spec_sema 40 comma_pair_ex 0 _ 3).
  vm_compute. reflexivity.
Defined.

Lemma p_jump_statement_return_skips_witness :
  let e := ok_node (@p_expression spec_sema 40 return_ex 1) in
  @p_jump_statement spec_sema 41 return_ex 0 =
    Ok (push_child (set_type (new (Ast.JumpStatement "return" None)) (type_exp e)) e,
        2 + 1).
Proof.
  apply (@p_jump_statement_return_skips spec_sema 40 return_ex 0 _ 2);
    vm_compute; reflexivity.
Defined.

Lemma p_jump_statement_break_continue_witness :
  @p_jump_statement spec_sema 41 [CONTINUE; Semicolon] 0 =
    Ok (set_type (new (Ast.JumpStatement "continue" None)) none_expression, 0 + 1 + 1).
Proof.
  apply (@p_jump_statement_break_continue spec_sema 40 [CONTINUE; Semicolon] 0 CONTINUE);
    [right; split; reflexivity | reflexivity].
Defined.

Lemma p_struct_declarator_named_bitfield_witness :
  @p_struct_declarator spec_sema 41 bitfield_ex 0 <> Ok (new Ast.StructDeclarator, 3).
Proof.
  apply (@p_struct_declarator_named_bitfield spec_sema 40 bitfield_ex 0
           (ok_node (@p_declarator spec_sema 40 bitfield_ex 0)) 1);
    vm_compute; reflexivity.
Defined.

Lemma p_struct_or_union_specifier_anonymous_witness :
  exists n, @p_struct_or_union_specifier spec_sema 41 anon_struct_ex 0 = Ok (n, 5 + 1).
Proof.
  refine (proj2 (@p_struct_or_union_specifier_anonymous spec_sema 40 anon_struct_ex 0 STRUCT
           (ok_node (@p_struct_declaration_list spec_sema 40 anon_struct_ex 2)) 5
           _ _ _ _) _);
    try (vm_compute; reflexivity); left; reflexivity.
Defined.

Lemma p_initializer_trailing_comma_witness :
  let l := ok_node (@p_initializer_list spec_sema 40 init_comma_ex 1) in
  @p_initializer spec_sema 41 init_comma_ex 0 =
    Ok (push_child (set_type (new Ast.Initializer) (type_exp l)) l, 2 + 1).
Proof.
  apply (@p_initializer_trailing_comma spec_sema 40 init_comma_ex 0 "Error parse logical_or_expressiong" _ 2);
    vm_compute; reflexivity.
Defined.

Lemma p_parameter_type_list_ellipsis_witness :
  let l := ok_node (@p_parameter_list spec_sema 40 ellipsis_ex 0) in
  @p_parameter_type_list spec_sema 41 ellipsis_ex 0 =
    Ok (Ast.mkParseNode (Ast.ParameterTypeList true) [l]
          (Symtable.push_val (type_exp l) Symtable.VaList), 2 + 1).
Proof.
  apply (@p_parameter_type_list_ellipsis spec_sema 40 ellipsis_ex 0 _ 2);
    vm_compute; reflexivity.
Defined.

Lemma p_direct_declarator_paren_unclosed_witness :
  let d := ok_node (@p_declarator spec_sema 41 paren_decl_ex 1) in
  @p_direct_declarator spec_sema 42 paren_decl_ex 0 =
    Ok (set_type (push_child (new Ast.DirectDeclarator) d) (type_exp d), 2).
Proof.
  apply (@p_direct_declarator_paren_unclosed spec_sema 39 paren_decl_ex 0 _ 2);
    vm_compute; reflexivity.
Defined.
